(** * cxo: the per-connection protocol engine ([node/conn.go]) and the
    client's subscription list

    A shallow embedding of the Go code.  Unsigned 32-bit integers are [Z]
    with the wrap-around written out, bytes are [Z] in [0, 256), Go maps are
    [gmap]s, slices are lists.  Code that runs under the connection's state
    is written in a small state monad whose second outcome is a goroutine
    that never returns (parked on a mutex or on a [select]). *)

From Stdlib Require Import ZArith Lia List String Sorted.
From stdpp Require Import base decidable option list gmap strings.

Local Open Scope Z_scope.

(** ** Bytes, words and slices *)

Abbreviation byte := Z (only parsing).

(** [cipher.PubKey] is a [[33]byte] array; [cipher.PubKey{}] is all zero. *)
Abbreviation PubKey := (list Z) (only parsing).

Definition blank_PubKey : PubKey := replicate 33 0.

(** Go's conversion [byte(v)]: the low eight bits. *)
Definition byte_of (v : Z) : byte := Z.land v 255.

(** Wrap-around of [uint32] arithmetic. *)
Definition wrap32 (v : Z) : Z := v mod 2 ^ 32.

(** [binary.LittleEndian.PutUint32(b, v)].  Go panics when [len(b) < 4];
    [encodeMsg] below only passes slices of 8 and of 4 bytes (see
    [encodeMsg_targets_in_range]), and an update out of range leaves the
    list as it is. *)
Definition PutUint32 (b : list byte) (v : Z) : list byte :=
  <[3%nat := byte_of (Z.shiftr v 24)]>
    (<[2%nat := byte_of (Z.shiftr v 16)]>
      (<[1%nat := byte_of (Z.shiftr v 8)]>
        (<[0%nat := byte_of v]> b))).

(** [binary.LittleEndian.Uint32(b)].  Go panics when [len(b) < 4]; both
    callers check [len(raw) >= 9] first.  A missing byte reads as 0. *)
Definition Uint32 (b : list byte) : Z :=
  Z.lor (b !!! 0%nat)
    (Z.lor (Z.shiftl (b !!! 1%nat) 8)
      (Z.lor (Z.shiftl (b !!! 2%nat) 16) (Z.shiftl (b !!! 3%nat) 24))).

(** [make([]byte, n, cap)]: [n] zero bytes (the capacity only reserves
    room). *)
Definition make_bytes (n : nat) : list byte := replicate n 0.

(** A write through the sub-slice [raw[:k]] lands in the first [k] bytes of
    [raw]: the two share their backing array. *)
Definition through_prefix (k : nat) (f : list byte -> list byte)
    (raw : list byte) : list byte :=
  f (take k raw) ++ drop k raw.

(** ** Errors and messages *)

(** The package's sentinel errors, [data.ErrNotFound], and values made by
    [errors.New] / [fmt.Errorf]. *)
Inductive error : Type :=
| ErrTimeout
| ErrClosed
| ErrNotPublic
| ErrNotFound
| errors_New (s : string).

Global Instance error_eq_dec : EqDecision error.
Proof. solve_decision. Defined.

(** The message variants of package [msg], with the fields [conn.go]
    reads. *)
Inductive Msg : Type :=
| msg_Sub (Feed : PubKey)
| msg_Unsub (Feed : PubKey)
| msg_RqList
| msg_List (Feeds : list PubKey)
| msg_Ok
| msg_Err (Err : string)
| msg_Root (Feed : PubKey) (Nonce Seq : Z) (Sig Value : list byte)
| msg_RootDone (Feed : PubKey) (Nonce Seq : Z)
| msg_RootErr (Feed : PubKey) (Nonce Seq : Z) (Err : string)
| msg_RqObject (Key : list byte) (Prefetch : list (list byte))
| msg_Object (Value : list byte) (Vals : list (list byte))
| msg_RqPreview (Feed : PubKey).

(** The encoding of messages belongs to package [msg]; [m.Encode()] and
    [msg.Decode(raw)] are taken as given. *)
Record MsgCodec : Type := {
  Encode : Msg -> list byte;
  Decode : list byte -> Msg + error
}.

Section codec.

Context (codec : MsgCodec).

(** [Conn.encodeMsg] *)
Definition encodeMsg (seq rseq : Z) (m : Msg) : list byte :=
  let em := Encode codec m in
  let raw := make_bytes 8 in
  let raw := PutUint32 raw seq in
  let raw := through_prefix 4 (fun b => PutUint32 b rseq) raw in
  raw ++ em.

(** [Conn.decodeRaw]: the four named results [(seq, rseq, m, err)]. *)
Definition decodeRaw (raw : list byte)
    : Z * Z * option Msg * option error :=
  if (length raw <? 9)%nat then
    (0, 0, None, Some (errors_New "invlaid messege received: too short"))
  else
    let seq := Uint32 raw in
    let raw := drop 4 raw in
    let rseq := Uint32 raw in
    let raw := drop 4 raw in
    match Decode codec raw with
    | inl m => (seq, rseq, Some m, None)
    | inr err => (seq, rseq, None, Some err)
    end.

End codec.

(** ** Channels and [select] *)

(** The channels a connection's goroutines meet on: the reply slot [rq]
    that [sendRequest] makes for a request (named by the request's sequence
    number), the timer's [tr.C], the connection's [closeq], and the
    transport's outbound queue [sendq]. *)
Inductive chan : Type :=
| chan_rq (id : Z)
| chan_timer
| chan_closeq
| chan_sendq.

Global Instance chan_eq_dec : EqDecision chan.
Proof. solve_decision. Defined.

(** A communication a goroutine offers: [ch <- v] or [<-ch]. *)
Inductive comm : Type :=
| comm_send (ch : chan) (v : option Msg)
| comm_recv (ch : chan).

(** What the rest of the program does while a goroutine is parked: another
    goroutine offers a send or a receive, or a channel is closed.  For the
    bounded queue [sendq] a receive stands for the transport taking a frame,
    that is for a free place in the queue. *)
Inductive event : Type :=
| ev_send (ch : chan) (v : option Msg)
| ev_recv (ch : chan)
| ev_close (ch : chan).

(** Whether an event completes an offered communication on an unbuffered
    channel, and with which received value: a send needs a receiver, a
    receive needs a sender or a closed channel (which yields the zero
    value).  Two sends on one channel never meet. *)
Definition fires (e : event) (op : comm) : option (option Msg) :=
  match op, e with
  | comm_send ch _, ev_recv ch' => if decide (ch = ch') then Some None else None
  | comm_recv ch, ev_send ch' v => if decide (ch = ch') then Some v else None
  | comm_recv ch, ev_close ch' => if decide (ch = ch') then Some None else None
  | _, _ => None
  end.

(** The first case of a [select] that the event completes, applied to the
    value it received. *)
Fixpoint select_case {A : Type} (cases : list (comm * (option Msg -> A)))
    (e : event) : option A :=
  match cases with
  | [] => None
  | (op, k) :: rest =>
      match fires e op with
      | Some v => Some (k v)
      | None => select_case rest e
      end
  end.

(** A [select] without [default], parked until an event completes one of
    its cases; [None] when no event of the trace does. *)
Fixpoint select_wait {A : Type} (cases : list (comm * (option Msg -> A)))
    (evs : list event) : option A :=
  match evs with
  | [] => None
  | e :: rest =>
      match select_case cases e with
      | Some a => Some a
      | None => select_wait cases rest
      end
  end.

(** Whether an event is the closing of a channel. *)
Definition is_close (e : event) : bool :=
  match e with
  | ev_close _ => true
  | _ => false
  end.

(** What is left of the trace once a [select] has gone through: the event
    that completed it is used up, unless it is the closing of a channel,
    which stays in force; the events that completed no case are still
    there. *)
Fixpoint select_rest {A : Type} (cases : list (comm * (option Msg -> A)))
    (evs : list event) : list event :=
  match evs with
  | [] => []
  | e :: rest =>
      match select_case cases e with
      | Some _ => if is_close e then e :: rest else rest
      | None => e :: select_rest cases rest
      end
  end.

(** The channel an event is about. *)
Definition event_chan (e : event) : chan :=
  match e with
  | ev_send ch _ | ev_recv ch | ev_close ch => ch
  end.

(** What is still pending of the world when a call makes a new timer and
    a new reply slot [rq]: [time.NewTimer] and [make(chan msg.Msg)] give
    new channels, and nothing that was there before is about them. *)
Definition still_pending (rq : chan) (evs : list event) : list event :=
  filter (fun e => event_chan e <> chan_timer /\ event_chan e <> rq) evs.

(** [tr.Stop()]: what the timer of a finished call would still deliver is
    not delivered. *)
Definition without_timer (evs : list event) : list event :=
  filter (fun e => event_chan e <> chan_timer) evs.

(** ** Connection state *)

(** [registry.Root], with the fields [handleRoot] reads. *)
Record Root : Type := {
  Pub : PubKey;
  Nonce : Z;
  Seq : Z;
  IsFull : bool
}.

(** [fillSent] holds two pointers, kept as handles. *)
Record fillSent : Type := {
  fill_f : nat;
  fill_s : nat
}.

(** [connFeed]: the filling operations of a feed, by head nonce.  Its
    embedded mutex is only taken in [Unsubscribe], for the length of the
    call. *)
Record connFeed : Type := {
  heads : gmap Z fillSent
}.

(** [new(connFeed)] *)
Definition new_connFeed : connFeed := {| heads := ∅ |}.

(** Calls that leave [conn.go]: the logger, and the two entry points of the
    filler, recorded in the order they are made. *)
Inductive Call : Type :=
| call_Print (s : string)
| call_Fatal (s : string)
| call_unholdSent (cf : connFeed)
| call_addToFiller (cf : connFeed) (r : Root).

(** The owning [Node] is declared in another file of the package.  Its
    state is an abstract type and the methods and fields [conn.go] uses are
    operations on it. *)
Record NodeOps (Node : Type) : Type := {
  (** [n.config.ResponseTimeout] and [n.config.Public] *)
  ResponseTimeout : Node -> Z;
  Public : Node -> bool;
  (** [n.Feeds()] *)
  node_Feeds : Node -> list PubKey;
  (** [n.Share(feed)] *)
  Share : PubKey -> Node -> Node * option error;
  (** [n.onSubscribeRemote(c, feed)] *)
  onSubscribeRemote : PubKey -> Node -> Node * option error;
  (** [_, ok = n.fc[feed]] *)
  fc_has : PubKey -> Node -> bool;
  (** [n.addConnFeed(c, feed)] *)
  addConnFeed : PubKey -> Node -> Node;
  (** [n.c.ReceivedRoot(sig, val)] *)
  ReceivedRoot : list byte -> list byte -> Node -> Node * (Root + error);
  (** [n.c.LastRoot(pk, nonce)]: both results, as Go returns them *)
  LastRoot : PubKey -> Z -> Node -> option Root * option error;
  (** [n.c.Get(key, 0)] *)
  Get : list byte -> Node -> Node * (list byte * option error);
  (** the text of the sentinel errors *)
  sentinel_text : error -> string
}.

Arguments ResponseTimeout {Node} _ _.
Arguments Public {Node} _ _.
Arguments node_Feeds {Node} _ _.
Arguments Share {Node} _ _ _.
Arguments onSubscribeRemote {Node} _ _ _.
Arguments fc_has {Node} _ _ _.
Arguments addConnFeed {Node} _ _ _.
Arguments ReceivedRoot {Node} _ _ _ _.
Arguments LastRoot {Node} _ _ _ _.
Arguments Get {Node} _ _ _.
Arguments sentinel_text {Node} _ _.

(** [Conn].  [mx] is [true] while the mutex is held, [sendq] lists the
    frames handed to the transport (oldest first), [closed] records that
    [c.Connection.Close()] has run, [calls] is the record of outside
    calls, and [world] is what the rest of the program does on the
    connection's channels from now on, in the order in which it happens: a
    [select] of the connection waits for the first of these events that
    completes one of its cases. *)
Record Conn (Node : Type) : Type := {
  incoming : bool;
  tcp : bool;
  node : Node;
  feeds : gmap PubKey connFeed;
  fillingRoots : Z;
  seq : Z;
  reqs : gmap Z chan;
  sendq : list (list byte);
  mx : bool;
  closed : bool;
  calls : list Call;
  world : list event
}.

Arguments incoming {Node} _.
Arguments tcp {Node} _.
Arguments node {Node} _.
Arguments feeds {Node} _.
Arguments fillingRoots {Node} _.
Arguments seq {Node} _.
Arguments reqs {Node} _.
Arguments sendq {Node} _.
Arguments mx {Node} _.
Arguments closed {Node} _.
Arguments calls {Node} _.
Arguments world {Node} _.

(** ** The connection's code *)

(** The result of running a piece of the connection's code in one
    goroutine: it returns, or it is parked for good (on the mutex it already
    holds, or on a [select] none of whose cases ever becomes ready).
    Deferred calls do not run in a parked goroutine. *)
Inductive Outcome (Node A : Type) : Type :=
| Ret (a : A) (c : Conn Node)
| Parked (c : Conn Node).

Arguments Ret {Node A} _ _.
Arguments Parked {Node A} _.

(** The state a run ends in, returned or parked. *)
Definition state_of {Node A : Type} (o : Outcome Node A) : Conn Node :=
  match o with
  | Ret _ c => c
  | Parked c => c
  end.

Definition M (Node A : Type) : Type := Conn Node -> Outcome Node A.

Global Instance M_ret {Node} : MRet (M Node) :=
  fun A a c => Ret a c.

Global Instance M_bind {Node} : MBind (M Node) :=
  fun A B k m c =>
    match m c with
    | Ret a c' => k a c'
    | Parked c' => Parked c'
    end.

Section conn.

Context {Node : Type} (ops : NodeOps Node) (codec : MsgCodec).

Local Abbreviation Conn := (Conn Node).
Local Abbreviation M := (M Node).

Definition get : M Conn := fun c => Ret c c.

Definition modify (g : Conn -> Conn) : M unit := fun c => Ret tt (g c).

Definition park {A : Type} : M A := fun c => Parked c.

Definition set_node (n : Node) (c : Conn) : Conn :=
  {| incoming := incoming c; tcp := tcp c; node := n; feeds := feeds c;
     fillingRoots := fillingRoots c; seq := seq c; reqs := reqs c;
     sendq := sendq c; mx := mx c; closed := closed c; calls := calls c;
     world := world c |}.

Definition set_feeds (g : gmap PubKey connFeed) (c : Conn) : Conn :=
  {| incoming := incoming c; tcp := tcp c; node := node c; feeds := g;
     fillingRoots := fillingRoots c; seq := seq c; reqs := reqs c;
     sendq := sendq c; mx := mx c; closed := closed c; calls := calls c;
     world := world c |}.

Definition set_seq (v : Z) (c : Conn) : Conn :=
  {| incoming := incoming c; tcp := tcp c; node := node c; feeds := feeds c;
     fillingRoots := fillingRoots c; seq := v; reqs := reqs c;
     sendq := sendq c; mx := mx c; closed := closed c; calls := calls c;
     world := world c |}.

Definition set_reqs (g : gmap Z chan) (c : Conn) : Conn :=
  {| incoming := incoming c; tcp := tcp c; node := node c; feeds := feeds c;
     fillingRoots := fillingRoots c; seq := seq c; reqs := g;
     sendq := sendq c; mx := mx c; closed := closed c; calls := calls c;
     world := world c |}.

Definition set_sendq (q : list (list byte)) (c : Conn) : Conn :=
  {| incoming := incoming c; tcp := tcp c; node := node c; feeds := feeds c;
     fillingRoots := fillingRoots c; seq := seq c; reqs := reqs c;
     sendq := q; mx := mx c; closed := closed c; calls := calls c;
     world := world c |}.

Definition set_mx (b : bool) (c : Conn) : Conn :=
  {| incoming := incoming c; tcp := tcp c; node := node c; feeds := feeds c;
     fillingRoots := fillingRoots c; seq := seq c; reqs := reqs c;
     sendq := sendq c; mx := b; closed := closed c; calls := calls c;
     world := world c |}.

Definition set_closed (b : bool) (c : Conn) : Conn :=
  {| incoming := incoming c; tcp := tcp c; node := node c; feeds := feeds c;
     fillingRoots := fillingRoots c; seq := seq c; reqs := reqs c;
     sendq := sendq c; mx := mx c; closed := b; calls := calls c;
     world := world c |}.

Definition set_calls (l : list Call) (c : Conn) : Conn :=
  {| incoming := incoming c; tcp := tcp c; node := node c; feeds := feeds c;
     fillingRoots := fillingRoots c; seq := seq c; reqs := reqs c;
     sendq := sendq c; mx := mx c; closed := closed c; calls := l;
     world := world c |}.

Definition set_world (w : list event) (c : Conn) : Conn :=
  {| incoming := incoming c; tcp := tcp c; node := node c; feeds := feeds c;
     fillingRoots := fillingRoots c; seq := seq c; reqs := reqs c;
     sendq := sendq c; mx := mx c; closed := closed c; calls := calls c;
     world := w |}.

(** [newConnection]: both maps made empty, the counter at zero.  Nothing
    is known yet of what the rest of the program will do. *)
Definition newConnection (n : Node) (isIncoming isTCP : bool) : Conn :=
  {| incoming := isIncoming; tcp := isTCP; node := n; feeds := ∅;
     fillingRoots := 0; seq := 0; reqs := ∅; sendq := []; mx := false;
     closed := false; calls := []; world := [] |}.

(** [c.mx.Lock()]: a goroutine that takes a held mutex waits; when it is
    the holder itself it waits for good. *)
Definition Lock : M unit :=
  fun c => if mx c then Parked c else Ret tt (set_mx true c).

Definition Unlock : M unit := modify (set_mx false).

(** [c.mx.Lock(); defer c.mx.Unlock()] around the rest of a function. *)
Definition locked {A : Type} (body : M A) : M A :=
  Lock ;; a ← body; Unlock ;; mret a.

(** An outside call, recorded. *)
Definition call (k : Call) : M unit :=
  modify (fun c => set_calls (calls c ++ [k]) c).

(** A method of the node: it may change the node's state. *)
Definition on_node {A : Type} (g : Node -> Node * A) : M A :=
  fun c => let '(n', a) := g (node c) in Ret a (set_node n' c).

(** [err.Error()] *)
Definition Error (e : error) : string :=
  match e with
  | errors_New s => s
  | _ => sentinel_text ops e
  end.

(** [Conn.Close]: once. *)
Definition Close : M (option error) :=
  modify (set_closed true) ;; mret None.

(** [Conn.nextSeq]: [atomic.AddUint32(&c.seq, 1)], which returns the new
    value. *)
Definition nextSeq : M Z :=
  fun c => let v := wrap32 (seq c + 1) in Ret v (set_seq v c).

(** The two cases of the [select] in [sendRaw]: [c.sendq <- raw], after
    which the frame is in the queue, and [<-c.closeq], after which it is
    not.  (Whether a send is ready does not depend on the value sent.) *)
Definition sendRaw_cases : list (comm * (option Msg -> bool)) :=
  [(comm_send chan_sendq None, fun _ => true);
   (comm_recv chan_closeq, fun _ => false)].

(** [Conn.sendRaw]: [select { case c.sendq <- raw: case <-c.closeq: }].
    The call waits until the transport takes the frame or [closeq] is
    closed, whichever the rest of the program does first; it does not
    return when neither happens. *)
Definition sendRaw (raw : list byte) : M unit :=
  c ← get;
  match select_wait sendRaw_cases (world c) with
  | Some sent =>
      modify (set_world (select_rest sendRaw_cases (world c))) ;;
      if sent then modify (fun c => set_sendq (sendq c ++ [raw]) c)
      else mret tt
  | None => park
  end.

(** [Conn.sendMsg] *)
Definition sendMsg (seq rseq : Z) (m : Msg) : M unit :=
  sendRaw (encodeMsg codec seq rseq m).

(** [Conn.closeWithError]: its body is a [TODO]. *)
Definition closeWithError (err : error) : M unit := mret tt.

(** [Conn.fatality] *)
Definition fatality (text : string) : M unit :=
  let err := errors_New text in
  call (call_Print (String.append "[ERR] " (Error err))) ;;
  closeWithError err.

(** [Conn.isResponse], [Conn.addRequest], [Conn.delRequest] *)
Definition isResponse (rseq : Z) : M (option chan) :=
  locked (c ← get; mret (reqs c !! rseq)).

Definition addRequest (seq : Z) (rq : chan) : M unit :=
  locked (modify (fun c => set_reqs (<[seq := rq]> (reqs c)) c)).

Definition delRequest (seq : Z) : M unit :=
  locked (modify (fun c => set_reqs (delete seq (reqs c)) c)).

(** [Conn.sendRequest], with the events [evs] that occur from the moment
    the request is registered: after what was pending before, they are
    what [sendMsg] and then the [select] wait for.  [reply] is the named
    result, still [nil] when the [select] is reached; the first case is
    [rq <- reply].  On return the deferred [tr.Stop()] and [delRequest]
    run. *)
Definition sendRequest (m : Msg) (evs : list event)
    : M (option Msg * option error) :=
  c ← get;
  let tc : list (comm * (option Msg -> option Msg * option error)) :=
    if 0 <? ResponseTimeout ops (node c)
    then [(comm_recv chan_timer, fun _ => (None, Some ErrTimeout))]
    else [] in
  let reply : option Msg := None in
  seq ← nextSeq;
  let rq := chan_rq seq in
  addRequest seq rq ;;
  modify (fun c => set_world (still_pending rq (world c) ++ evs) c) ;;
  sendMsg seq 0 m ;;
  c ← get;
  let cases :=
    [(comm_send rq reply, fun _ => (reply, None))]
    ++ tc
    ++ [(comm_recv chan_closeq, fun _ => (None, Some ErrClosed))] in
  match select_wait cases (world c) with
  | Some r =>
      modify (set_world (without_timer (select_rest cases (world c)))) ;;
      delRequest seq ;;
      mret r
  | None => park
  end.

(** [Conn.sendErr], [Conn.sendOk] *)
Definition sendErr (rseq : Z) (err : error) : M unit :=
  seq ← nextSeq; sendMsg seq rseq (msg_Err (Error err)).

Definition sendOk (rseq : Z) : M unit :=
  seq ← nextSeq; sendMsg seq rseq msg_Ok.

(** *** Handlers of inbound messages *)

(** [Conn.handleSub].  The node's own mutex, taken before [n.fc] is read,
    belongs to the node. *)
Definition handleSub (seq : Z) (Feed : PubKey) : M (option error) :=
  if decide (Feed = blank_PubKey) then
    sendErr seq (errors_New "blank public key") ;; mret None
  else
    locked (
      c ← get;
      if decide (is_Some (feeds c !! Feed)) then
        sendOk seq ;; mret None
      else
        reject ← on_node (onSubscribeRemote ops Feed);
        match reject with
        | Some e => sendErr seq e ;; mret None
        | None =>
            c ← get;
            if fc_has ops Feed (node c) then
              on_node (fun n => (addConnFeed ops Feed n, tt)) ;;
              modify (fun c => set_feeds (<[Feed := new_connFeed]> (feeds c)) c) ;;
              sendOk seq ;;
              mret None
            else
              sendErr seq (errors_New "not share the feed") ;; mret None
        end).

(** [Conn.handleUnsub]: the teardown is a [TODO]. *)
Definition handleUnsub (seq : Z) (Feed : PubKey) : M (option error) :=
  if decide (Feed = blank_PubKey) then mret None
  else locked (c ← get;
               match feeds c !! Feed with
               | None => mret None
               | Some cf => mret None
               end).

(** [Conn.handleRqList] *)
Definition handleRqList (seq : Z) : M (option error) :=
  c ← get;
  if Public ops (node c) then
    s ← nextSeq;
    sendMsg s seq (msg_List (node_Feeds ops (node c))) ;;
    mret None
  else
    sendErr seq ErrNotPublic ;; mret None.

(** [Conn.handleRoot] *)
Definition handleRoot (Feed : PubKey) (Sig Value : list byte)
    : M (option error) :=
  locked (
    c ← get;
    match feeds c !! Feed with
    | None => mret None
    | Some cf =>
        rr ← on_node (ReceivedRoot ops Sig Value);
        match rr with
        | inr err =>
            call (call_Print
                    (String.append "[ERR] received Root error: " (Error err))) ;;
            mret None
        | inl r =>
            if IsFull r then mret None
            else
              c ← get;
              let '(last, err) := LastRoot ops (Pub r) (Nonce r) (node c) in
              let check_seq : M (option error) :=
                match last with
                | Some l =>
                    if Seq r <=? Seq l then mret None
                    else call (call_addToFiller cf r) ;; mret None
                | None => call (call_addToFiller cf r) ;; mret None
                end in
              match err with
              | Some e =>
                  if decide (e = ErrNotFound) then check_seq
                  else
                    call (call_Print "[ERR] can't get last root") ;;
                    mret None
              | None => check_seq
              end
        end
    end).

(** [Conn.handleRootDone], [Conn.handleRootErr], [Conn.handleObject],
    [Conn.handleRqPreview]: empty bodies. *)
Definition handleRootDone : M (option error) := mret None.

Definition handleRootErr : M (option error) := mret None.

Definition handleObject : M (option error) := mret None.

Definition handleRqPreview : M (option error) := mret None.

(** [Conn.handleRqObject]: nothing is sent on any path; a failure of the
    store other than not-found goes to [n.Fatal]. *)
Definition handleRqObject (seq : Z) (Key : list byte) : M (option error) :=
  r ← on_node (Get ops Key);
  match snd r with
  | Some err =>
      if decide (err = ErrNotFound) then mret None
      else
        call (call_Fatal (String.append "[ERR] CXDS DB failure:" (Error err))) ;;
        mret None
  | None => mret None
  end.

(** [Conn.handle]: dispatch on the message's type. *)
Definition handle (seq : Z) (m : Msg) : M (option error) :=
  match m with
  | msg_Sub Feed => handleSub seq Feed
  | msg_Unsub Feed => handleUnsub seq Feed
  | msg_RqList => handleRqList seq
  | msg_Root Feed _ _ Sig Value => handleRoot Feed Sig Value
  | msg_RootDone _ _ _ => handleRootDone
  | msg_RootErr _ _ _ _ => handleRootErr
  | msg_RqObject Key _ => handleRqObject seq Key
  | msg_Object _ _ => handleObject
  | msg_RqPreview _ => handleRqPreview
  | msg_List _ | msg_Ok | msg_Err _ =>
      mret (Some (errors_New "invalid messege type"))
  end.

(** *** The receive loop *)

(** What the loop does after a frame: read the next one, return, or stay at
    [rq <- m], the send of a reply into the slot of a pending request,
    until some goroutine receives from [rq]. *)
Inductive loop_ctl : Type :=
| loop_continue
| loop_return
| loop_send (rq : chan) (m : Msg).

(** One pass of the [for] loop of [Conn.receiving] on a frame taken from
    [receiveq]. *)
Definition receiving_frame (raw : list byte) : M loop_ctl :=
  if (length raw <? 9)%nat then
    fatality "invalid messege received: samll size" ;; mret loop_return
  else
    let seq := Uint32 raw in
    let raw := drop 4 raw in
    let rseq := Uint32 raw in
    let raw := drop 4 raw in
    match Decode codec raw with
    | inr err =>
        fatality (String.append "can't decode received messege: " (Error err)) ;;
        mret loop_return
    | inl m =>
        rq ← isResponse rseq;
        match rq with
        | Some rq => mret (loop_send rq m)
        | None =>
            err ← handle seq m;
            match err with
            | Some e =>
                fatality (String.append "error handling messege: " (Error e)) ;;
                mret loop_return
            | None => mret loop_continue
            end
        end
    end.

(** What the loop's [select] takes next: a frame, the closing of
    [receiveq], or [closeq]. *)
Inductive inbound : Type :=
| in_frame (raw : list byte)
| in_receiveq_closed
| in_closeq.

(** [Conn.receiving] over the inputs that arrive; with none left the loop
    waits in its [select]. *)
Fixpoint receiving (ins : list inbound) : M loop_ctl :=
  match ins with
  | [] => mret loop_continue
  | in_frame raw :: rest =>
      r ← receiving_frame raw;
      match r with
      | loop_continue => receiving rest
      | _ => mret r
      end
  | in_receiveq_closed :: _ => mret loop_return
  | in_closeq :: _ => mret loop_return
  end.

(** *** The outward API *)

(** [Conn.RemoteFeeds] *)
Definition RemoteFeeds (evs : list event)
    : M (list PubKey * option error) :=
  r ← sendRequest msg_RqList evs;
  match snd r with
  | Some e => mret ([], Some e)
  | None =>
      match fst r with
      | Some (msg_List l) => mret (l, None)
      | Some (msg_Err s) => mret ([], Some (errors_New s))
      | _ => mret ([], Some (errors_New "invalid response type"))
      end
  end.

(** [Conn.Subscribe] *)
Definition Subscribe (feed : PubKey) (evs : list event) : M (option error) :=
  locked (
    c ← get;
    if decide (is_Some (feeds c !! feed)) then mret None
    else
      err ← on_node (Share ops feed);
      match err with
      | Some e => mret (Some e)
      | None =>
          r ← sendRequest (msg_Sub feed) evs;
          match snd r with
          | Some e => mret (Some e)
          | None =>
              let err :=
                match fst r with
                | Some msg_Ok => None
                | Some (msg_Err s) => Some (errors_New s)
                | _ => Some (errors_New "invalid response type")
                end in
              match err with
              | Some e => mret (Some e)
              | None =>
                  modify (fun c =>
                    set_feeds (<[feed := new_connFeed]> (feeds c)) c) ;;
                  mret None
              end
          end
      end).

(** What [Unsubscribe] hands to Go's [delete(c.feeds, key)]: the source
    passes the Feed State [cf] it has just looked up, where the map's keys
    are public keys. *)
Inductive delete_key : Type :=
| key_PubKey (pk : PubKey)
| key_connFeed (cf : connFeed).

(** [delete(m, key)] removes the entry whose key equals [key]; no entry of
    a map from public keys is keyed by a Feed State. *)
Definition go_delete (key : delete_key) (m : gmap PubKey connFeed)
    : gmap PubKey connFeed :=
  match key with
  | key_PubKey pk => delete pk m
  | key_connFeed _ => m
  end.

(** [Conn.Unsubscribe] *)
Definition Unsubscribe (feed : PubKey) : M unit :=
  locked (
    c ← get;
    match feeds c !! feed with
    | None => mret tt
    | Some cf =>
        call (call_unholdSent cf) ;;
        modify (fun c => set_feeds (go_delete (key_connFeed cf) (feeds c)) c) ;;
        seq ← nextSeq;
        sendMsg seq 0 (msg_Unsub feed)
    end).

(** *** What the properties observe *)

(** The connection's own state: every field but the node it points to,
    the record of outside calls and the world around the connection. *)
Definition conn_state (c : Conn) :=
  (incoming c, tcp c, feeds c, fillingRoots c, seq c, reqs c, sendq c, mx c,
   closed c).

(** The roots handed to the filler so far, with the Feed State they were
    registered under. *)
Definition filling (c : Conn) : list (connFeed * Root) :=
  omap (fun k => match k with
                 | call_addToFiller cf r => Some (cf, r)
                 | _ => None
                 end) (calls c).

End conn.

(** ** The client's subscription list *)

Module Client.

(** The messages the client sends when its subscriptions change. *)
Inductive Msg : Type :=
| AddFeedMsg (Feed : PubKey)
| DelFeedMsg (Feed : PubKey).

(** [gnet.Conn] as the client uses it: the send queue (a buffered channel
    of capacity [queue_cap]) and whether the connection is closed. *)
Record Conn : Type := {
  SendQueue : list (list byte);
  queue_cap : nat;
  Closed : bool
}.

(** [Client]: the subscriptions [feeds], the server's feeds [srvfs], the
    connection [cn], and what was printed. *)
Record Client : Type := {
  feeds : list PubKey;
  srvfs : list PubKey;
  cn : Conn;
  printed : list string
}.

Definition set_feeds (l : list PubKey) (c : Client) : Client :=
  {| feeds := l; srvfs := srvfs c; cn := cn c; printed := printed c |}.

Definition set_srvfs (l : list PubKey) (c : Client) : Client :=
  {| feeds := feeds c; srvfs := l; cn := cn c; printed := printed c |}.

Definition set_cn (q : Conn) (c : Client) : Client :=
  {| feeds := feeds c; srvfs := srvfs c; cn := q; printed := printed c |}.

Definition set_printed (l : list string) (c : Client) : Client :=
  {| feeds := feeds c; srvfs := srvfs c; cn := cn c; printed := l |}.

(** [make([]T, len, cap)]: a slice of [len] zero values. *)
Definition make_slice {A : Type} (zero : A) (len cap : nat) : list A :=
  replicate len zero.

(** [copy(dst, src)] copies [min(len(dst), len(src))] elements and leaves
    the length of [dst] as it is. *)
Definition copy {A : Type} (dst src : list A) : list A :=
  let k := Nat.min (length dst) (length src) in
  take k src ++ drop k dst.

(** The loop [for _, f := range l { if f == feed { has = true; break } }]. *)
Fixpoint has (l : list PubKey) (feed : PubKey) : bool :=
  match l with
  | [] => false
  | f :: rest => if decide (f = feed) then true else has rest feed
  end.

(** The first index [i] with [l[i] == feed] removed:
    [append(l[:i], l[i+1:]...)]; [None] when the loop ends without a
    match. *)
Fixpoint remove_first (l : list PubKey) (feed : PubKey)
    : option (list PubKey) :=
  match l with
  | [] => None
  | f :: rest =>
      if decide (f = feed) then Some rest
      else match remove_first rest feed with
           | Some rest' => Some (f :: rest')
           | None => None
           end
  end.

Section client.

(** [Encode(msg)] is declared with the messages. *)
Context (Encode : Msg -> list byte).

(** [Client.sendMessage]: a [select] with a [default].  When the queue has
    room and the connection is closed both cases are ready and Go picks
    one; [pick_send] is that pick. *)
Definition sendMessage (pick_send : bool) (msg : Msg) (c : Client)
    : Client * bool :=
  let q := cn c in
  let room := (length (SendQueue q) <? queue_cap q)%nat in
  if room && (negb (Closed q) || pick_send) then
    (set_cn {| SendQueue := SendQueue q ++ [Encode msg];
               queue_cap := queue_cap q; Closed := Closed q |} c, true)
  else if Closed q then (c, false)
  else
    (set_cn {| SendQueue := SendQueue q; queue_cap := queue_cap q;
               Closed := true |}
       (set_printed (printed c ++ ["[ERR] write queue full"%string]) c),
     false).

Definition hasServerFeed (c : Client) (feed : PubKey) : bool :=
  has (srvfs c) feed.

Definition hasFeed (c : Client) (feed : PubKey) : bool :=
  has (feeds c) feed.

(** [Client.addServerFeed], [Client.delServerFeed] *)
Definition addServerFeed (feed : PubKey) (c : Client) : Client :=
  if has (srvfs c) feed then c else set_srvfs (srvfs c ++ [feed]) c.

Definition delServerFeed (feed : PubKey) (c : Client) : Client :=
  match remove_first (srvfs c) feed with
  | Some l => set_srvfs l c
  | None => c
  end.

(** [Client.Subscribe] *)
Definition Subscribe (pick_send : bool) (feed : PubKey) (c : Client)
    : Client * bool :=
  if negb (hasServerFeed c feed) then (c, false)
  else if hasFeed c feed then (c, false)
  else sendMessage pick_send (AddFeedMsg feed) (set_feeds (feeds c ++ [feed]) c).

(** [Client.Unsubscribe] *)
Definition Unsubscribe (pick_send : bool) (feed : PubKey) (c : Client)
    : Client * bool :=
  match remove_first (feeds c) feed with
  | Some l => sendMessage pick_send (DelFeedMsg feed) (set_feeds l c)
  | None => (c, false)
  end.

(** [Client.Feeds]: the result is [nil] without subscriptions; otherwise
    it is made with length 0 and capacity [len(c.feeds)], and [copy] fills
    it. *)
Definition Feeds (c : Client) : list PubKey :=
  if (length (feeds c) =? 0)%nat then []
  else
    let feeds := make_slice blank_PubKey 0 (length (Client.feeds c)) in
    copy feeds (Client.feeds c).

End client.

End Client.

(** ** A small node and codec, for the examples *)

(** A codec that writes a one-byte tag and, for the messages that carry
    only a feed or a key, its bytes. *)
Definition tag_Encode (m : Msg) : list byte :=
  match m with
  | msg_Sub Feed => 1 :: Feed
  | msg_Unsub Feed => 2 :: Feed
  | msg_RqList => [3]
  | msg_List _ => [4]
  | msg_Ok => [5]
  | msg_Err _ => [6]
  | msg_Root Feed _ _ _ Value => 7 :: Value
  | msg_RootDone Feed _ _ => 8 :: Feed
  | msg_RootErr Feed _ _ _ => 9 :: Feed
  | msg_RqObject Key _ => 10 :: Key
  | msg_Object Value _ => 11 :: Value
  | msg_RqPreview Feed => 12 :: Feed
  end.

Definition tag_Decode (raw : list byte) : Msg + error :=
  match raw with
  | 1 :: Feed => inl (msg_Sub Feed)
  | 2 :: Feed => inl (msg_Unsub Feed)
  | 3 :: _ => inl msg_RqList
  | 4 :: _ => inl (msg_List [])
  | 5 :: _ => inl msg_Ok
  | 6 :: _ => inl (msg_Err "")
  | 10 :: Key => inl (msg_RqObject Key [])
  | _ => inr (errors_New "unknown message type")
  end.

Definition tag_codec : MsgCodec :=
  {| Encode := tag_Encode; Decode := tag_Decode |}.

(** A node that keeps the feeds it shares and the roots it has stored.  It
    accepts every feed, takes a root's nonce and sequence number from the
    first two bytes of its value and its feed from the signature, and has
    an empty object store. *)
Record small_node : Type := {
  shared : list PubKey;
  roots : list Root
}.

Definition small_LastRoot (pk : PubKey) (nonce : Z) (n : small_node)
    : option Root * option error :=
  match filter (fun r => Pub r = pk /\ Nonce r = nonce) (roots n) with
  | r :: _ => (Some r, None)
  | [] => (None, Some ErrNotFound)
  end.

Definition small_ops : NodeOps small_node :=
  {| ResponseTimeout := fun _ => 5;
     Public := fun _ => false;
     node_Feeds := shared;
     Share := fun feed n =>
       ({| shared := feed :: shared n; roots := roots n |}, None);
     onSubscribeRemote := fun _ n => (n, None);
     fc_has := fun feed n => bool_decide (feed ∈ shared n);
     addConnFeed := fun _ n => n;
     ReceivedRoot := fun sig val n =>
       match val with
       | nonce :: sq :: _ =>
           (n, inl {| Pub := sig; Nonce := nonce; Seq := sq; IsFull := false |})
       | _ => (n, inr (errors_New "short root"))
       end;
     LastRoot := small_LastRoot;
     Get := fun _ n => (n, ([], Some ErrNotFound));
     sentinel_text := fun _ => "sentinel"%string |}.

(** A feed, a node that shares it and has stored a Root of sequence
    number 7 for its head 0, a fresh connection of that node, and the same
    connection once subscribed to the feed. *)
Definition feed_a : PubKey := replicate 33 1.

Definition root_a7 : Root :=
  {| Pub := feed_a; Nonce := 0; Seq := 7; IsFull := false |}.

Definition node_a : small_node :=
  {| shared := [feed_a]; roots := [root_a7] |}.

Definition conn_a : Conn small_node := newConnection node_a true true.

Definition conn_a_subscribed : Conn small_node :=
  set_feeds {[ feed_a := new_connFeed ]} conn_a.

(** The same two connections with a transport that takes two frames. *)
Definition conn_a_ready : Conn small_node :=
  set_world [ev_recv chan_sendq; ev_recv chan_sendq] conn_a.

Definition conn_a_subscribed_ready : Conn small_node :=
  set_world [ev_recv chan_sendq; ev_recv chan_sendq] conn_a_subscribed.

(** [k] successive calls of [nextSeq], with the numbers they return. *)
Fixpoint nextSeq_times {Node : Type} (k : nat) : M Node (list Z) :=
  match k with
  | O => mret []
  | S k' => v ← nextSeq; vs ← nextSeq_times k'; mret (v :: vs)
  end.

(** ** The connection's feed list and its printed form *)

(** [connString] *)
Definition connString (isIncoming isTCP : bool) (addr : string) : string :=
  let s := if isIncoming then "-> "%string else "<- "%string in
  let s := String.append s (if isTCP then "tcp://" else "udp://")%string in
  String.append s addr.

(** [Conn.Feeds]: the keys of the feed map, collected under the mutex.  Go
    visits the keys of a map in no fixed order; the list here has the
    map's own order, and what is proved of it does not depend on it. *)
Definition Feeds {Node : Type} : M Node (list PubKey) :=
  locked (c ← get; mret ((map_to_list (feeds c)).*1)).

(** The small node with no response timeout configured. *)
Definition small_ops_no_timeout : NodeOps small_node :=
  {| ResponseTimeout := fun _ => 0;
     Public := Public small_ops;
     node_Feeds := node_Feeds small_ops;
     Share := Share small_ops;
     onSubscribeRemote := onSubscribeRemote small_ops;
     fc_has := fc_has small_ops;
     addConnFeed := addConnFeed small_ops;
     ReceivedRoot := ReceivedRoot small_ops;
     LastRoot := LastRoot small_ops;
     Get := Get small_ops;
     sentinel_text := sentinel_text small_ops |}.

(** A second feed, which the small node does not share; the codec extended
    to read a [RootDone]; the small node with a callback that rejects every
    subscription. *)
Definition feed_b : PubKey := replicate 33 2.

Definition tag_codec_more : MsgCodec :=
  {| Encode := tag_Encode;
     Decode := fun raw =>
       match raw with
       | 8 :: Feed => inl (msg_RootDone Feed 0 0)
       | _ => tag_Decode raw
       end |}.

Definition small_ops_rejecting : NodeOps small_node :=
  {| ResponseTimeout := ResponseTimeout small_ops;
     Public := Public small_ops;
     node_Feeds := node_Feeds small_ops;
     Share := fun feed n => (n, Some (errors_New "feed refused"));
     onSubscribeRemote := fun _ n => (n, Some (errors_New "not welcome"));
     fc_has := fc_has small_ops;
     addConnFeed := addConnFeed small_ops;
     ReceivedRoot := ReceivedRoot small_ops;
     LastRoot := LastRoot small_ops;
     Get := Get small_ops;
     sentinel_text := sentinel_text small_ops |}.

(** A client with no subscription, whose server offers [feed_a] and whose
    send queue is full. *)
Definition client_a : Client.Client :=
  {| Client.feeds := [];
     Client.srvfs := [feed_a];
     Client.cn := {| Client.SendQueue := [[0]]; Client.queue_cap := 1;
                     Client.Closed := false |};
     Client.printed := [] |}.

(** * Properties *)

(** ** The frame codec *)

Lemma testbit_255 (v n : Z) :
  0 <= n -> Z.testbit (Z.land v 255) n = Z.testbit v n && (n <? 8).
Proof.
  intros Hn. rewrite Z.land_spec. f_equal.
  change 255 with (Z.ones 8). apply Z.testbit_ones_nonneg; lia.
Qed.

(** Four bytes written least significant first read back as the word. *)
Lemma le32_bytes_value (v : Z) :
  0 <= v < 2 ^ 32 ->
  Z.lor (byte_of v)
    (Z.lor (Z.shiftl (byte_of (Z.shiftr v 8)) 8)
      (Z.lor (Z.shiftl (byte_of (Z.shiftr v 16)) 16)
             (Z.shiftl (byte_of (Z.shiftr v 24)) 24))) = v.
Proof.
  intros Hv. unfold byte_of. apply Z.bits_inj'. intros n Hn.
  rewrite !Z.lor_spec, !Z.shiftl_spec by lia.
  rewrite testbit_255 by lia.
  destruct (Z.ltb_spec n 8) as [H8|H8].
  { rewrite (Z.testbit_neg_r _ (n - 8)), (Z.testbit_neg_r _ (n - 16)),
      (Z.testbit_neg_r _ (n - 24)) by lia.
    rewrite andb_true_r, !orb_false_r. reflexivity. }
  rewrite andb_false_r. simpl.
  destruct (Z.ltb_spec n 16) as [H16|H16].
  { rewrite (Z.testbit_neg_r _ (n - 16)), (Z.testbit_neg_r _ (n - 24)) by lia.
    rewrite testbit_255, Z.shiftr_spec by lia.
    replace (n - 8 <? 8) with true by (symmetry; apply Z.ltb_lt; lia).
    rewrite andb_true_r, !orb_false_r. f_equal. lia. }
  rewrite (testbit_255 _ (n - 8)) by lia.
  replace (n - 8 <? 8) with false by (symmetry; apply Z.ltb_ge; lia).
  rewrite andb_false_r. simpl.
  destruct (Z.ltb_spec n 24) as [H24|H24].
  { rewrite (Z.testbit_neg_r _ (n - 24)) by lia.
    rewrite testbit_255, Z.shiftr_spec by lia.
    replace (n - 16 <? 8) with true by (symmetry; apply Z.ltb_lt; lia).
    rewrite andb_true_r, !orb_false_r. f_equal. lia. }
  rewrite (testbit_255 _ (n - 16)) by lia.
  replace (n - 16 <? 8) with false by (symmetry; apply Z.ltb_ge; lia).
  rewrite andb_false_r. simpl.
  rewrite testbit_255, Z.shiftr_spec by lia.
  replace (n - 24 + 24) with n by lia.
  destruct (Z.ltb_spec (n - 24) 8) as [H32|H32].
  { rewrite andb_true_r. reflexivity. }
  rewrite andb_false_r. symmetry.
  destruct (Z.eq_dec v 0) as [->|Hnz]; [apply Z.bits_0|].
  apply Z.bits_above_log2; [lia|].
  assert (Z.log2 v < 32) by (apply Z.log2_lt_pow2; lia). lia.
Qed.

Section codec_facts.

Context (codec : MsgCodec).

(** The header [encodeMsg] builds: the second [PutUint32] writes through
    [raw[:4]], the first four bytes, so [rseq] replaces [seq] and bytes 4
    to 7 stay zero. *)
Lemma encodeMsg_layout (seq rseq : Z) (m : Msg) :
  encodeMsg codec seq rseq m =
  [byte_of rseq; byte_of (Z.shiftr rseq 8); byte_of (Z.shiftr rseq 16);
   byte_of (Z.shiftr rseq 24); 0; 0; 0; 0] ++ Encode codec m.
Proof. reflexivity. Qed.

(** Both targets of [PutUint32] in [encodeMsg] hold at least four bytes. *)
Lemma encodeMsg_targets_in_range (seq : Z) :
  (4 <= length (make_bytes 8))%nat /\
  (4 <= length (take 4 (PutUint32 (make_bytes 8) seq)))%nat.
Proof. split; simpl; lia. Qed.

(** C2, as the code has it: decoding the frame that [encodeMsg] builds for
    [(seq, rseq, m)] yields [rseq] as the sequence number and 0 as the
    response-sequence number, whatever [seq] was; the frame does not carry
    [seq] at all. *)
Theorem decodeRaw_encodeMsg_loses_seq (seq rseq : Z) (m : Msg) :
  0 <= rseq < 2 ^ 32 ->
  Encode codec m <> [] ->
  exists dm err,
    decodeRaw codec (encodeMsg codec seq rseq m) = (rseq, 0, dm, err).
Proof.
  intros Hr Hem. rewrite encodeMsg_layout.
  destruct (Encode codec m) as [|e em] eqn:E; [congruence|].
  unfold decodeRaw. cbn [length app Nat.ltb Nat.leb drop].
  unfold Uint32. cbn [lookup_total list_lookup_total app].
  rewrite le32_bytes_value by lia.
  destruct (Decode codec _); eauto.
Qed.

End codec_facts.

Lemma decodeRaw_encodeMsg_loses_seq_witness :
  exists dm err,
    decodeRaw tag_codec (encodeMsg tag_codec 1 2 msg_Ok) = (2, 0, dm, err).
Proof.
  apply (decodeRaw_encodeMsg_loses_seq tag_codec 1 2 msg_Ok).
  - lia.
  - discriminate.
Defined.

(** At [seq = 1], [rseq = 2]: the frame reads back as [(2, 0, m)]. *)
Example decodeRaw_encodeMsg_1_2 :
  decodeRaw tag_codec (encodeMsg tag_codec 1 2 msg_Ok)
  = (2, 0, Some msg_Ok, None).
Proof. reflexivity. Qed.

(** ** The connection *)

(** Unfolds the monad's plumbing. *)
Ltac unfold_M :=
  unfold locked, Lock, Unlock, call, on_node, modify, get, park;
  unfold mbind, M_bind, mret, M_ret.

Lemma StronglySorted_lt_NoDup (l : list Z) :
  StronglySorted Z.lt l -> NoDup l.
Proof.
  induction 1 as [|x l Hs IH Hall]; constructor; auto.
  intros Hin. rewrite Forall_forall in Hall.
  specialize (Hall x Hin). lia.
Qed.

Lemma snoc_neq {A : Type} (l : list A) (x : A) : l <> l ++ [x].
Proof.
  intros H. apply (f_equal length) in H.
  rewrite length_app in H. simpl in H. lia.
Qed.

Section conn_facts.

Context {Node : Type} (ops : NodeOps Node) (codec : MsgCodec).

Implicit Types c : Conn Node.

(** Releasing a mutex that was free when taken gives the state back. *)
Lemma set_mx_restore c : mx c = false -> set_mx false (set_mx true c) = c.
Proof. destruct c; simpl; intros ->; reflexivity. Qed.

(** *** Sequence numbers *)

Lemma nextSeq_below_max c :
  0 <= seq c < 2 ^ 32 - 1 ->
  nextSeq c = Ret (seq c + 1) (set_seq (seq c + 1) c).
Proof.
  intros H. unfold nextSeq, wrap32.
  rewrite Z.mod_small by lia. reflexivity.
Qed.

(** C6, amended: while the counter stays below [2^32 - 1], successive calls
    of [nextSeq] return strictly increasing numbers, each above the counter
    they started from, so none is returned twice. *)
Theorem nextSeq_increasing_below_wrap (k : nat) c :
  0 <= seq c ->
  seq c + Z.of_nat k < 2 ^ 32 ->
  exists vs c',
    nextSeq_times k c = Ret vs c' /\
    length vs = k /\
    seq c' = seq c + Z.of_nat k /\
    StronglySorted Z.lt (seq c :: vs) /\
    NoDup vs.
Proof.
  revert c. induction k as [|k IH]; intros c H0 Hk.
  - exists [], c. simpl. repeat split; try lia.
    + repeat constructor.
    + constructor.
  - cbn [nextSeq_times]. unfold mbind, M_bind.
    rewrite nextSeq_below_max by lia.
    destruct (IH (set_seq (seq c + 1) c)) as (vs & c' & Hrun & Hlen & Hseq & Hs & Hnd).
    { simpl. lia. }
    { simpl. lia. }
    rewrite Hrun. exists ((seq c + 1) :: vs), c'.
    simpl in Hseq, Hs. repeat split.
    + simpl. lia.
    + lia.
    + inversion Hs as [|x l Hs' Hall]; subst.
      constructor; [exact Hs|].
      constructor; [lia|].
      eapply Forall_impl; [exact Hall|]. simpl. intros; lia.
    + apply StronglySorted_lt_NoDup. exact Hs.
Qed.

(** *** Handing a frame to the transport *)

(** When the first thing the rest of the program does is to take a frame
    from the queue, [sendRaw] queues its frame. *)
Lemma sendRaw_taken (raw : list byte) (w : list event) c :
  world c = ev_recv chan_sendq :: w ->
  sendRaw raw c = Ret tt (set_sendq (sendq c ++ [raw]) (set_world w c)).
Proof.
  intros Hw. unfold sendRaw. unfold_M. rewrite Hw. reflexivity.
Qed.

(** Whatever the rest of the program does, [sendRaw] returns with the
    frame queued, returns without it, or does not return; besides the
    queue it changes only what is left of the world. *)
Lemma sendRaw_outcomes (raw : list byte) c :
  (exists w, sendRaw raw c
             = Ret tt (set_sendq (sendq c ++ [raw]) (set_world w c))) \/
  (exists w, sendRaw raw c = Ret tt (set_world w c)) \/
  sendRaw raw c = Parked c.
Proof.
  unfold sendRaw. unfold_M.
  destruct (select_wait sendRaw_cases (world c)) as [[|]|]; eauto.
Qed.

(** *** Unsubscribe *)

(** Without a subscription [Unsubscribe] changes nothing and sends
    nothing. *)
Lemma Unsubscribe_not_subscribed (feed : PubKey) c :
  mx c = false ->
  feeds c !! feed = None ->
  Unsubscribe codec feed c = Ret tt c.
Proof.
  intros Hmx Hf. unfold Unsubscribe. unfold_M. rewrite Hmx. simpl.
  rewrite Hf. simpl. rewrite set_mx_restore by exact Hmx. reflexivity.
Qed.

(** C4, as the code has it: with a subscription, [Unsubscribe] detaches
    the fills and goes on to send one [Unsub] frame, but the feed map keeps
    the entry, whether the call returns or waits on the transport:
    [delete] is given the Feed State, not the feed.  When the transport
    takes the frame the call returns with that one frame queued, built
    with response-sequence 0, and the mutex released. *)
Theorem Unsubscribe_keeps_entry (feed : PubKey) (cf : connFeed) c :
  mx c = false ->
  feeds c !! feed = Some cf ->
  (feeds (state_of (Unsubscribe codec feed c)) !! feed = Some cf /\
   feeds (state_of (Unsubscribe codec feed c)) = feeds c /\
   calls (state_of (Unsubscribe codec feed c))
   = calls c ++ [call_unholdSent cf]) /\
  (forall w, world c = ev_recv chan_sendq :: w ->
   exists c',
     Unsubscribe codec feed c = Ret tt c' /\
     feeds c' !! feed = Some cf /\
     feeds c' = feeds c /\
     calls c' = calls c ++ [call_unholdSent cf] /\
     seq c' = wrap32 (seq c + 1) /\
     sendq c' = sendq c ++ [encodeMsg codec (wrap32 (seq c + 1)) 0 (msg_Unsub feed)] /\
     mx c' = false).
Proof.
  intros Hmx Hf. split.
  - unfold Unsubscribe, sendMsg, sendRaw, nextSeq. unfold_M.
    rewrite Hmx. simpl. rewrite Hf. simpl.
    destruct (select_wait sendRaw_cases (world c)) as [[|]|]; simpl;
      repeat split; try reflexivity; exact Hf.
  - intros w Hw. unfold Unsubscribe, sendMsg, sendRaw, nextSeq. unfold_M.
    rewrite Hmx. simpl. rewrite Hf. simpl. rewrite Hw. simpl.
    eexists. split; [reflexivity|]. simpl.
    repeat split; try reflexivity. exact Hf.
Qed.

(** *** Subscribe *)

(** [handleSub] grants no subscription to the blank key, whatever becomes
    of its reply. *)
Lemma handleSub_blank (seq : Z) c :
  feeds (state_of (handleSub ops codec seq blank_PubKey c)) = feeds c.
Proof.
  unfold handleSub. rewrite decide_True by reflexivity.
  unfold sendErr, sendMsg, sendRaw, nextSeq. unfold_M. simpl.
  destruct (select_wait sendRaw_cases (world c)) as [[|]|]; reflexivity.
Qed.

(** C7, as the code has it: a first local [Subscribe], on a connection
    with no Feed State for the feed, never returns success and makes no
    Feed State: it returns the node's error when [n.Share] fails, and
    otherwise stops in [sendRequest] at the mutex it holds itself.  Two
    local calls in a row do not succeed both times. *)
Theorem Subscribe_first_call_never_succeeds (feed : PubKey)
    (evs : list event) c :
  mx c = false ->
  feeds c !! feed = None ->
  (forall c', Subscribe ops codec feed evs c <> Ret None c') /\
  feeds (state_of (Subscribe ops codec feed evs c)) = feeds c /\
  (forall e c',
     Subscribe ops codec feed evs c = Ret (Some e) c' ->
     feeds (state_of (Subscribe ops codec feed evs c')) = feeds c /\
     forall c'', Subscribe ops codec feed evs c' <> Ret None c'').
Proof.
  intros Hmx Hf.
  assert (Hrun : forall c0 : Conn Node,
            mx c0 = false -> feeds c0 !! feed = None ->
            (forall c', Subscribe ops codec feed evs c0 <> Ret None c') /\
            feeds (state_of (Subscribe ops codec feed evs c0)) = feeds c0 /\
            (forall e c', Subscribe ops codec feed evs c0 = Ret (Some e) c' ->
                          mx c' = false /\ feeds c' = feeds c0)).
  { intros c0 Hmx0 Hf0.
    unfold Subscribe, sendRequest, addRequest, nextSeq. unfold_M.
    rewrite Hmx0. simpl.
    rewrite decide_False by (rewrite Hf0; apply is_Some_None). simpl.
    destruct (Share ops feed (node c0)) as [n' [e|]]; simpl.
    - repeat split; try discriminate;
        match goal with
        | H : Ret _ _ = Ret _ _ |- _ => injection H as _ <-; reflexivity
        end.
    - repeat split; discriminate. }
  destruct (Hrun c Hmx Hf) as (Hnever & Hkeep & Herr).
  split; [exact Hnever|]. split; [exact Hkeep|].
  intros e c' Hret. destruct (Herr e c' Hret) as [Hmx' Hf'].
  assert (Hnone : feeds c' !! feed = None) by (rewrite Hf'; exact Hf).
  destruct (Hrun c' Hmx' Hnone) as (Hnever' & Hkeep' & _).
  split; [rewrite Hkeep'; exact Hf'|exact Hnever'].
Qed.

(** With a Feed State for the feed already in the map, which only an
    inbound [Sub] can have put there, a local [Subscribe] returns success
    at once and leaves the connection as it was. *)
Lemma Subscribe_already_subscribed (feed : PubKey) (evs : list event) c :
  mx c = false ->
  is_Some (feeds c !! feed) ->
  Subscribe ops codec feed evs c = Ret None c.
Proof.
  intros Hmx Hsub. unfold Subscribe. unfold_M. rewrite Hmx. simpl.
  rewrite decide_True by exact Hsub. simpl.
  rewrite set_mx_restore by exact Hmx. reflexivity.
Qed.

(** An inbound [Sub] for a feed that has a Feed State and is not blank
    makes no second entry: the feed map stays as it is, and when the
    transport takes the frame the reply built is an [Ok]. *)
Lemma handleSub_already_granted (feed : PubKey) (rseq : Z)
    (w : list event) c :
  mx c = false ->
  is_Some (feeds c !! feed) ->
  feed <> blank_PubKey ->
  world c = ev_recv chan_sendq :: w ->
  exists c',
    handleSub ops codec rseq feed c = Ret None c' /\
    feeds c' = feeds c /\
    node c' = node c /\
    sendq c' = sendq c ++ [encodeMsg codec (wrap32 (seq c + 1)) rseq msg_Ok].
Proof.
  intros Hmx Hsub Hnb Hw. unfold handleSub. rewrite decide_False by exact Hnb.
  unfold sendOk, sendMsg, sendRaw, nextSeq. unfold_M.
  rewrite Hmx. simpl. rewrite decide_True by exact Hsub. simpl.
  rewrite Hw. simpl.
  eexists. split; [reflexivity|]. simpl. auto.
Qed.

(** A local [Subscribe] that returns success leaves a Feed State for the
    feed and the mutex free: a second call meets the case above. *)
Lemma Subscribe_success_subscribed (feed : PubKey) (evs : list event) c c' :
  Subscribe ops codec feed evs c = Ret None c' ->
  is_Some (feeds c' !! feed) /\ mx c' = false.
Proof.
  unfold Subscribe, sendRequest, addRequest, nextSeq. unfold_M.
  destruct (mx c) eqn:Hmx; [discriminate|]. simpl.
  destruct (decide (is_Some (feeds c !! feed))) as [Hs|Hs]; simpl.
  - intros [= <-]. simpl. auto.
  - destruct (Share ops feed (node c)) as [n' [e|]]; simpl; discriminate.
Qed.

(** *** Root announcements *)

(** C3: an announcement on a subscribed feed whose Root the store accepts,
    while the store's latest Root for the same head has a sequence number
    that is not smaller, is dropped: [handleRoot] returns with the
    connection's own state as it was and hands nothing to the filler. *)
Theorem handleRoot_stale_dropped (Feed : PubKey) (Sig Value : list byte)
    (cf : connFeed) (n' : Node) (r last : Root) (err : option error) c :
  mx c = false ->
  feeds c !! Feed = Some cf ->
  ReceivedRoot ops Sig Value (node c) = (n', inl r) ->
  LastRoot ops (Pub r) (Nonce r) n' = (Some last, err) ->
  Seq r <= Seq last ->
  exists c',
    handleRoot ops Feed Sig Value c = Ret None c' /\
    conn_state c' = conn_state c /\
    filling c' = filling c.
Proof.
  intros Hmx Hf Hrr Hlast Hseq. unfold handleRoot. unfold_M.
  rewrite Hmx. simpl. rewrite Hf. simpl. rewrite Hrr. simpl.
  destruct (IsFull r).
  { simpl. eexists. split; [reflexivity|].
    unfold conn_state, filling. simpl. rewrite Hmx. auto. }
  simpl. rewrite Hlast.
  assert (Hle : (Seq r <=? Seq last) = true) by (apply Z.leb_le; exact Hseq).
  destruct err as [e|].
  - destruct (decide (e = ErrNotFound)).
    + rewrite Hle. simpl. eexists. split; [reflexivity|].
      unfold conn_state, filling. simpl. rewrite Hmx. auto.
    + simpl. eexists. split; [reflexivity|].
      unfold conn_state, filling. simpl. rewrite Hmx.
      split; [reflexivity|]. rewrite omap_app. simpl.
      apply app_nil_r.
  - rewrite Hle. simpl. eexists. split; [reflexivity|].
    unfold conn_state, filling. simpl. rewrite Hmx. auto.
Qed.

(** A newer Root, or one for a head the store has no Root of, goes to the
    filler. *)
Lemma handleRoot_fresh_filled (Feed : PubKey) (Sig Value : list byte)
    (cf : connFeed) (n' : Node) (r : Root) c :
  mx c = false ->
  feeds c !! Feed = Some cf ->
  ReceivedRoot ops Sig Value (node c) = (n', inl r) ->
  IsFull r = false ->
  LastRoot ops (Pub r) (Nonce r) n' = (None, Some ErrNotFound) ->
  exists c',
    handleRoot ops Feed Sig Value c = Ret None c' /\
    filling c' = filling c ++ [(cf, r)].
Proof.
  intros Hmx Hf Hrr Hfull Hlast. unfold handleRoot. unfold_M.
  rewrite Hmx. simpl. rewrite Hf. simpl. rewrite Hrr. simpl.
  rewrite Hfull. simpl. rewrite Hlast.
  rewrite decide_True by reflexivity. simpl.
  eexists. split; [reflexivity|].
  unfold filling. simpl. rewrite omap_app. reflexivity.
Qed.

(** *** Object requests *)

(** C9: [handleRqObject] queues no frame on any path and returns no error,
    so the receive loop goes on; when the store reports not-found nothing
    else happens either, and [n.Fatal] is called exactly when the store
    fails with another error. *)
Theorem handleRqObject_not_found_silent (seq : Z) (Key : list byte)
    (Prefetch : list (list byte)) (n' : Node) (val : list byte)
    (err : option error) c :
  Get ops Key (node c) = (n', (val, err)) ->
  exists c',
    handleRqObject ops seq Key c = Ret None c' /\
    handle ops codec seq (msg_RqObject Key Prefetch) c = Ret None c' /\
    conn_state c' = conn_state c /\
    (err = Some ErrNotFound -> c' = set_node n' c) /\
    ((exists s, calls c' = calls c ++ [call_Fatal s]) <->
     (exists e, err = Some e /\ e <> ErrNotFound)).
Proof.
  intros Hget. unfold handle, handleRqObject. unfold_M. rewrite Hget. simpl.
  assert (Hkeep : forall s : string,
             calls (set_node n' c) <> calls c ++ [call_Fatal s]).
  { intros s. simpl. apply snoc_neq. }
  destruct err as [e|]; simpl.
  - destruct (decide (e = ErrNotFound)) as [->|Hne]; simpl.
    + eexists. do 3 (split; [reflexivity|]). split; [reflexivity|]. split.
      * intros [s Hs]. destruct (Hkeep s Hs).
      * intros [e [[= <-] He]]. congruence.
    + eexists. do 3 (split; [reflexivity|]). split; [congruence|]. split.
      * intros _. exists e. auto.
      * intros _. simpl. eauto.
  - eexists. do 3 (split; [reflexivity|]). split; [discriminate|]. split.
    + intros [s Hs]. destruct (Hkeep s Hs).
    + intros [e [? _]]. discriminate.
Qed.

(** *** The receive loop *)

(** What the loop does with a frame that is too short or does not decode:
    one line printed by [fatality], then [return]. *)
Lemma receiving_frame_malformed (raw : list byte) c :
  (length raw < 9)%nat \/
  (exists err, Decode codec (drop 4 (drop 4 raw)) = inr err) ->
  exists text,
    receiving_frame ops codec raw c
    = Ret loop_return (set_calls (calls c ++ [call_Print text]) c).
Proof.
  intros H. unfold receiving_frame, fatality, closeWithError. unfold_M.
  destruct (length raw <? 9)%nat eqn:Hlen.
  - simpl. eexists. reflexivity.
  - destruct H as [H|[err H]].
    + apply Nat.ltb_ge in Hlen. lia.
    + rewrite H. simpl. eexists. reflexivity.
Qed.

(** C8, as the code has it: on a frame of fewer than nine bytes, or one
    whose payload does not decode, the loop calls no handler, prints the
    error through [fatality] and returns; the connection's own state stays
    as it was: [closed] is not set and the pending requests stay in [reqs],
    because [closeWithError] does nothing. *)
Theorem receiving_malformed_frame_not_closed (raw : list byte) c :
  (length raw < 9)%nat \/
  (exists err, Decode codec (drop 4 (drop 4 raw)) = inr err) ->
  exists text c',
    receiving_frame ops codec raw c = Ret loop_return c' /\
    conn_state c' = conn_state c /\
    node c' = node c /\
    calls c' = calls c ++ [call_Print text].
Proof.
  intros H. destruct (receiving_frame_malformed raw c H) as [text Hrun].
  exists text, (set_calls (calls c ++ [call_Print text]) c).
  split; [exact Hrun|]. repeat split.
Qed.

(** The loop over the inbound queue stops at such a frame, whatever
    follows it. *)
Lemma receiving_stops_at_short_frame (raw : list byte)
    (rest : list inbound) c :
  (length raw < 9)%nat ->
  exists c',
    receiving ops codec (in_frame raw :: rest) c = Ret loop_return c' /\
    closed c' = closed c /\
    reqs c' = reqs c.
Proof.
  intros H.
  destruct (receiving_frame_malformed raw c (or_introl H)) as [text Hrun].
  eexists. cbn [receiving]. unfold mbind, M_bind. rewrite Hrun.
  split; [reflexivity|]. split; reflexivity.
Qed.

(** *** Requests *)

Lemma select_case_result {A : Type}
    (cases : list (comm * (option Msg -> A))) (e : event) (a : A) :
  select_case cases e = Some a ->
  exists op k v, In (op, k) cases /\ a = k v.
Proof.
  induction cases as [|[op k] cases IH]; simpl; [discriminate|].
  destruct (fires e op) as [v|].
  - intros [= <-]. exists op, k, v. auto.
  - intros H. destruct (IH H) as (op' & k' & v' & Hin & ->).
    exists op', k', v'. auto.
Qed.

(** A [select] returns through one of its cases. *)
Lemma select_wait_result {A : Type}
    (cases : list (comm * (option Msg -> A))) (evs : list event) (a : A) :
  select_wait cases evs = Some a ->
  exists op k v, In (op, k) cases /\ a = k v.
Proof.
  induction evs as [|e evs IH]; simpl; [discriminate|].
  destruct (select_case cases e) as [a'|] eqn:E.
  - intros [= <-]. eapply select_case_result; exact E.
  - exact IH.
Qed.

(** C1, as the code has it: whatever happens while [sendRequest] waits, a
    reply frame dispatched by the receive loop included, the reply it
    returns is [nil]; it never returns a frame's payload.  Its first
    [select] case sends into [rq] where it should receive. *)
Theorem sendRequest_never_returns_payload (m : Msg) (evs : list event)
    (r : option Msg * option error) c c' :
  sendRequest ops codec m evs c = Ret r c' ->
  fst r = None.
Proof.
  unfold sendRequest, addRequest, delRequest, sendMsg, sendRaw, nextSeq.
  unfold_M. simpl.
  destruct (mx c); [discriminate|]. simpl.
  match goal with
  | |- context [select_wait sendRaw_cases ?t] =>
      destruct (select_wait sendRaw_cases t) as [sent|]
  end; [|discriminate].
  destruct sent; simpl;
    (match goal with
     | |- context [select_wait ?cs ?t] =>
         destruct (select_wait cs t) as [r'|] eqn:E
     end; [|discriminate]);
    simpl; intros [= <- _];
    apply select_wait_result in E; destruct E as (op & k & v & Hin & ->);
    destruct (0 <? ResponseTimeout ops (node c)); simpl in Hin;
    intuition (try discriminate);
    match goal with
    | H : (_, _) = (_, _) |- _ => inversion H; subst; reflexivity
    end.
Qed.

(** *** Subscribing to the blank key *)

(** [Subscribe] produces no error of its own: an error it returns comes
    from [n.Share] or from [sendRequest]. *)
Lemma Subscribe_error_from_Share (feed : PubKey) (evs : list event)
    (e : error) c c' :
  Subscribe ops codec feed evs c = Ret (Some e) c' ->
  exists n', Share ops feed (node c) = (n', Some e).
Proof.
  unfold Subscribe, sendRequest, addRequest, nextSeq. unfold_M.
  destruct (mx c) eqn:Hmx; [discriminate|]. simpl.
  destruct (decide (is_Some (feeds c !! feed))) as [Hs|Hs]; simpl;
    [discriminate|].
  destruct (Share ops feed (node c)) as [n' [e'|]]; simpl; [|discriminate].
  intros [= -> _]. eauto.
Qed.

(** C5, as the code has it: [Subscribe] has no check for the blank key.
    With no Feed State for it and a node that accepts it, the call goes on
    to [sendRequest], and there [addRequest] takes the mutex that
    [Subscribe] still holds: the call never returns, and no
    blank-identifier error comes back. *)
Theorem Subscribe_blank_not_rejected (evs : list event) (n' : Node) c :
  mx c = false ->
  feeds c !! blank_PubKey = None ->
  Share ops blank_PubKey (node c) = (n', None) ->
  Subscribe ops codec blank_PubKey evs c
  = Parked (set_seq (wrap32 (seq c + 1)) (set_node n' (set_mx true c))).
Proof.
  intros Hmx Hf Hshare.
  unfold Subscribe, sendRequest, addRequest, nextSeq. unfold_M.
  rewrite Hmx. simpl.
  rewrite decide_False by (rewrite Hf; apply is_Some_None).
  simpl. rewrite Hshare. reflexivity.
Qed.

End conn_facts.

(** ** The client *)

(** C10, as the code has it: [Feeds] returns an empty list whatever the
    subscriptions are: the slice it copies into has length 0. *)
Theorem Client_Feeds_always_empty (c : Client.Client) :
  Client.Feeds c = [].
Proof.
  unfold Client.Feeds, Client.copy, Client.make_slice.
  destruct (length (Client.feeds c) =? 0)%nat; reflexivity.
Qed.

(** A client whose server offers a feed subscribes to it; the feed is in
    its list, and [Feeds] still returns nothing. *)
Example Client_Feeds_after_Subscribe :
  let c0 := {| Client.feeds := []; Client.srvfs := [[1; 2; 3]];
               Client.cn := {| Client.SendQueue := []; Client.queue_cap := 8;
                               Client.Closed := false |};
               Client.printed := [] |} in
  let '(c1, ok) := Client.Subscribe (fun _ => []) true [1; 2; 3] c0 in
  ok = true /\ Client.feeds c1 = [[1; 2; 3]] /\ Client.Feeds c1 = [].
Proof. simpl. auto. Qed.


Lemma nextSeq_increasing_below_wrap_witness :
  exists vs c',
    nextSeq_times 3 (newConnection tt false true) = Ret vs c' /\
    length vs = 3%nat /\
    seq c' = seq (newConnection tt false true) + Z.of_nat 3 /\
    StronglySorted Z.lt (seq (newConnection tt false true) :: vs) /\
    NoDup vs.
Proof.
  apply (nextSeq_increasing_below_wrap 3 (newConnection tt false true)).
  - simpl. lia.
  - simpl. lia.
Defined.

(** C6, as stated, fails where the [uint32] counter wraps: from
    4294967294 two successive calls return 4294967295 and then 0. *)
Lemma nextSeq_wraps_counterexample :
  ~ (forall (c c1 c2 : Conn unit) (v1 v2 : Z),
       nextSeq c = Ret v1 c1 -> nextSeq c1 = Ret v2 c2 -> v1 < v2).
Proof.
  intros H.
  specialize (H (set_seq 4294967294 (newConnection tt false true))
                (set_seq 4294967295 (newConnection tt false true))
                (set_seq 0 (newConnection tt false true))
                4294967295 0 eq_refl eq_refl).
  lia.
Qed.

Example nextSeq_times_at_wrap :
  exists c',
    nextSeq_times 3 (set_seq 4294967294 (newConnection tt false true))
    = Ret [4294967295; 0; 1] c'.
Proof. eexists. reflexivity. Qed.

Lemma sendRequest_never_returns_payload_witness :
  fst (None : option Msg, Some ErrTimeout) = None.
Proof.
  apply (sendRequest_never_returns_payload small_ops tag_codec msg_RqList
           [ev_recv chan_sendq;
            ev_send (chan_rq 1) (Some (msg_List [feed_a]));
            ev_send chan_timer None]
           (None, Some ErrTimeout) conn_a
           (set_world [ev_send (chan_rq 1) (Some (msg_List [feed_a]))]
              (set_sendq [encodeMsg tag_codec 1 0 msg_RqList]
                 (set_seq 1 conn_a)))).
  vm_compute. reflexivity.
Defined.

(** The scenario of C1 step by step.  The transport takes the request's
    frame, [sendRequest] has registered its slot and waits; the receive
    loop takes the reply frame (sequence number 7, response-sequence 1, an
    [Ok]) and stops at its send into the slot; that send does not wake
    [sendRequest], whose own case on the slot is a send too; the timer
    does, and the call returns [ErrTimeout]. *)
Example sendRequest_reply_then_timeout :
  let sent :=
    set_sendq [encodeMsg tag_codec 1 0 msg_RqList] (set_seq 1 conn_a) in
  let waiting := set_reqs {[ 1 := chan_rq 1 ]} sent in
  sendRequest small_ops tag_codec msg_RqList [ev_recv chan_sendq] conn_a
  = Parked waiting /\
  receiving_frame small_ops tag_codec [7; 0; 0; 0; 1; 0; 0; 0; 5] waiting
  = Ret (loop_send (chan_rq 1) msg_Ok) waiting /\
  sendRequest small_ops tag_codec msg_RqList
    [ev_recv chan_sendq; ev_send (chan_rq 1) (Some msg_Ok)] conn_a
  = Parked (set_world [ev_send (chan_rq 1) (Some msg_Ok)] waiting) /\
  sendRequest small_ops tag_codec msg_RqList
    [ev_recv chan_sendq; ev_send (chan_rq 1) (Some msg_Ok);
     ev_send chan_timer None] conn_a
  = Ret (None, Some ErrTimeout)
      (set_world [ev_send (chan_rq 1) (Some msg_Ok)] sent).
Proof. vm_compute. repeat split; reflexivity. Qed.

Lemma handleRoot_stale_dropped_witness :
  exists c',
    handleRoot small_ops feed_a feed_a [0; 5] conn_a_subscribed = Ret None c' /\
    conn_state c' = conn_state conn_a_subscribed /\
    filling c' = filling conn_a_subscribed.
Proof.
  apply (handleRoot_stale_dropped small_ops feed_a feed_a [0; 5]
           new_connFeed node_a
           {| Pub := feed_a; Nonce := 0; Seq := 5; IsFull := false |}
           root_a7 None conn_a_subscribed).
  - reflexivity.
  - vm_compute. reflexivity.
  - reflexivity.
  - vm_compute. reflexivity.
  - simpl. lia.
Defined.

Lemma Unsubscribe_keeps_entry_witness :
  (feeds (state_of (Unsubscribe tag_codec feed_a conn_a_subscribed_ready))
     !! feed_a = Some new_connFeed /\
   feeds (state_of (Unsubscribe tag_codec feed_a conn_a_subscribed_ready))
   = feeds conn_a_subscribed_ready /\
   calls (state_of (Unsubscribe tag_codec feed_a conn_a_subscribed_ready))
   = calls conn_a_subscribed_ready ++ [call_unholdSent new_connFeed]) /\
  (forall w, world conn_a_subscribed_ready = ev_recv chan_sendq :: w ->
   exists c',
     Unsubscribe tag_codec feed_a conn_a_subscribed_ready = Ret tt c' /\
     feeds c' !! feed_a = Some new_connFeed /\
     feeds c' = feeds conn_a_subscribed_ready /\
     calls c' = calls conn_a_subscribed_ready
                ++ [call_unholdSent new_connFeed] /\
     seq c' = wrap32 (seq conn_a_subscribed_ready + 1) /\
     sendq c' = sendq conn_a_subscribed_ready
                ++ [encodeMsg tag_codec
                      (wrap32 (seq conn_a_subscribed_ready + 1)) 0
                      (msg_Unsub feed_a)] /\
     mx c' = false).
Proof.
  apply (Unsubscribe_keeps_entry tag_codec feed_a new_connFeed
           conn_a_subscribed_ready).
  - reflexivity.
  - vm_compute. reflexivity.
Defined.

(** The call on a ready transport, and on one that takes nothing: the
    entry for the feed is there afterwards in both. *)
Example Unsubscribe_runs :
  Unsubscribe tag_codec feed_a conn_a_subscribed_ready
  = Ret tt
      (set_world [ev_recv chan_sendq]
         (set_sendq [encodeMsg tag_codec 1 0 (msg_Unsub feed_a)]
            (set_seq 1
               (set_calls [call_unholdSent new_connFeed]
                  conn_a_subscribed)))) /\
  Unsubscribe tag_codec feed_a conn_a_subscribed
  = Parked
      (set_mx true
         (set_seq 1
            (set_calls [call_unholdSent new_connFeed] conn_a_subscribed))).
Proof. vm_compute. split; reflexivity. Qed.

Lemma Subscribe_first_call_never_succeeds_witness :
  (forall c', Subscribe small_ops tag_codec feed_a [ev_recv chan_sendq] conn_a
              <> Ret None c') /\
  feeds (state_of (Subscribe small_ops tag_codec feed_a [ev_recv chan_sendq]
                     conn_a))
  = feeds conn_a /\
  (forall e c',
     Subscribe small_ops tag_codec feed_a [ev_recv chan_sendq] conn_a
     = Ret (Some e) c' ->
     feeds (state_of (Subscribe small_ops tag_codec feed_a
                        [ev_recv chan_sendq] c'))
     = feeds conn_a /\
     forall c'', Subscribe small_ops tag_codec feed_a [ev_recv chan_sendq] c'
                 <> Ret None c'').
Proof.
  apply (Subscribe_first_call_never_succeeds small_ops tag_codec feed_a
           [ev_recv chan_sendq] conn_a).
  - reflexivity.
  - reflexivity.
Defined.

(** Two local calls in a row on a fresh connection of a node that shares
    the feed, with a transport ready to take frames: the first stops at
    the mutex with nothing queued; from the state it leaves, the second
    stops at once. *)
Example Subscribe_locally_twice :
  let parked := set_seq 1 (set_mx true conn_a_ready) in
  Subscribe small_ops tag_codec feed_a [ev_recv chan_sendq] conn_a_ready
  = Parked (set_node {| shared := [feed_a; feed_a]; roots := [root_a7] |}
              parked) /\
  Subscribe small_ops tag_codec feed_a [ev_recv chan_sendq]
    (set_node {| shared := [feed_a; feed_a]; roots := [root_a7] |} parked)
  = Parked (set_node {| shared := [feed_a; feed_a]; roots := [root_a7] |}
              parked).
Proof. vm_compute. split; reflexivity. Qed.

Lemma handleRqObject_not_found_silent_witness :
  exists c',
    handleRqObject small_ops 4 [1; 2] conn_a = Ret None c' /\
    handle small_ops tag_codec 4 (msg_RqObject [1; 2] []) conn_a = Ret None c' /\
    conn_state c' = conn_state conn_a /\
    (Some ErrNotFound = Some ErrNotFound -> c' = set_node node_a conn_a) /\
    ((exists s, calls c' = calls conn_a ++ [call_Fatal s]) <->
     (exists e, Some ErrNotFound = Some e /\ e <> ErrNotFound)).
Proof.
  apply (handleRqObject_not_found_silent small_ops tag_codec 4 [1; 2] []
           node_a [] (Some ErrNotFound) conn_a).
  reflexivity.
Defined.

Lemma receiving_malformed_frame_not_closed_witness :
  exists text c',
    receiving_frame small_ops tag_codec [1; 0; 0; 0; 0] conn_a
    = Ret loop_return c' /\
    conn_state c' = conn_state conn_a /\
    node c' = node conn_a /\
    calls c' = calls conn_a ++ [call_Print text].
Proof.
  apply (receiving_malformed_frame_not_closed small_ops tag_codec
           [1; 0; 0; 0; 0] conn_a).
  left. simpl. lia.
Defined.

(** The frame of length 5: the loop returns, the connection is not closed. *)
Example receiving_frame_of_length_5 :
  exists c',
    receiving small_ops tag_codec
      [in_frame [1; 0; 0; 0; 0]; in_frame [2; 0; 0; 0; 0; 0; 0; 0; 3]] conn_a
    = Ret loop_return c' /\
    closed c' = false /\
    sendq c' = [].
Proof. eexists. vm_compute. repeat split; reflexivity. Qed.

Lemma Subscribe_blank_not_rejected_witness :
  Subscribe small_ops tag_codec blank_PubKey [] conn_a
  = Parked (set_seq (wrap32 (seq conn_a + 1))
              (set_node {| shared := [blank_PubKey; feed_a];
                           roots := [root_a7] |}
                 (set_mx true conn_a))).
Proof.
  apply (Subscribe_blank_not_rejected small_ops tag_codec []
           {| shared := [blank_PubKey; feed_a]; roots := [root_a7] |} conn_a).
  - reflexivity.
  - reflexivity.
  - reflexivity.
Defined.

(** The inbound path does reject the blank key, with an [Err] reply. *)
Example handleSub_blank_rejected :
  exists c',
    handleSub small_ops tag_codec 9 blank_PubKey conn_a_ready = Ret None c' /\
    feeds c' = feeds conn_a /\
    sendq c' = [encodeMsg tag_codec 1 9 (msg_Err "blank public key")].
Proof. eexists. vm_compute. repeat split; reflexivity. Qed.

(** From a fresh connection whose transport takes two frames: an inbound
    [Sub] is granted, a second one is answered again, a local [Subscribe]
    then returns at once without a frame, and the feed map holds one entry
    throughout. *)
Example subscribe_twice_from_fresh :
  let c1 :=
    set_world [ev_recv chan_sendq]
      (set_sendq [encodeMsg tag_codec 1 9 msg_Ok]
         (set_seq 1 conn_a_subscribed)) in
  let c2 :=
    set_sendq [encodeMsg tag_codec 1 9 msg_Ok; encodeMsg tag_codec 2 10 msg_Ok]
      (set_seq 2 conn_a_subscribed) in
  handleSub small_ops tag_codec 9 feed_a conn_a_ready = Ret None c1 /\
  handleSub small_ops tag_codec 10 feed_a c1 = Ret None c2 /\
  Subscribe small_ops tag_codec feed_a [] c2 = Ret None c2 /\
  size (feeds c1) = 1%nat /\
  size (feeds c2) = 1%nat.
Proof. vm_compute. repeat split; reflexivity. Qed.

(** * Further properties of the connection *)

(** ** Frames as the decoder reads them *)

Lemma PutUint32_fresh (v : Z) :
  PutUint32 (make_bytes 4) v
  = [byte_of v; byte_of (Z.shiftr v 8); byte_of (Z.shiftr v 16);
     byte_of (Z.shiftr v 24)].
Proof. reflexivity. Qed.

(** A frame whose header has the sequence number in bytes 0 to 3 and the
    response-sequence number in bytes 4 to 7, both little-endian, followed
    by a non-empty payload, decodes to these two numbers and to whatever
    [msg.Decode] makes of the payload. *)
Theorem decodeRaw_reads_header (codec : MsgCodec) (seq rseq : Z)
    (payload : list byte) :
  0 <= seq < 2 ^ 32 ->
  0 <= rseq < 2 ^ 32 ->
  payload <> [] ->
  decodeRaw codec
    (PutUint32 (make_bytes 4) seq ++ PutUint32 (make_bytes 4) rseq ++ payload)
  = match Decode codec payload with
    | inl m => (seq, rseq, Some m, None)
    | inr err => (seq, rseq, None, Some err)
    end.
Proof.
  intros Hs Hr Hp. destruct payload as [|p payload]; [congruence|].
  rewrite !PutUint32_fresh.
  unfold decodeRaw. cbn [app length Nat.ltb Nat.leb drop].
  unfold Uint32. cbn [lookup_total list_lookup_total].
  rewrite !le32_bytes_value by lia. reflexivity.
Qed.

Lemma decodeRaw_reads_header_witness :
  decodeRaw tag_codec
    (PutUint32 (make_bytes 4) 258 ++ PutUint32 (make_bytes 4) 7 ++ [5])
  = match Decode tag_codec [5] with
    | inl m => (258, 7, Some m, None)
    | inr err => (258, 7, None, Some err)
    end.
Proof.
  apply (decodeRaw_reads_header tag_codec 258 7 [5]).
  - lia.
  - lia.
  - discriminate.
Defined.

Section conn_requests.

Context {Node : Type} (ops : NodeOps Node) (codec : MsgCodec).

Implicit Types c : Conn Node.

(** ** The table of pending requests *)

(** A slot registered under a sequence number is the one [isResponse]
    finds for that number; the other numbers answer as before. *)
Theorem addRequest_isResponse (s : Z) (rq : chan) c :
  mx c = false ->
  exists c1,
    addRequest s rq c = Ret tt c1 /\
    isResponse s c1 = Ret (Some rq) c1 /\
    (forall k, k <> s -> isResponse k c1 = Ret (reqs c !! k) c1) /\
    feeds c1 = feeds c /\ seq c1 = seq c /\ sendq c1 = sendq c.
Proof.
  intros Hmx. unfold addRequest, isResponse. unfold_M. rewrite Hmx. simpl.
  eexists. split; [reflexivity|]. simpl. split; [|split].
  - rewrite lookup_insert_eq. reflexivity.
  - intros k Hk. rewrite lookup_insert_ne by congruence. reflexivity.
  - auto.
Qed.

(** Registering a slot and removing it again leaves the table without an
    entry for the number: the connection is as before when the number was
    free, and an older slot under the same number is gone with it. *)
Theorem addRequest_delRequest (s : Z) (rq : chan) c :
  mx c = false ->
  exists c2,
    (addRequest s rq ;; delRequest s) c = Ret tt c2 /\
    reqs c2 = delete s (reqs c) /\
    reqs c2 !! s = None /\
    (reqs c !! s = None -> c2 = c).
Proof.
  intros Hmx. unfold addRequest, delRequest. unfold_M. rewrite Hmx. simpl.
  eexists. split; [reflexivity|]. simpl.
  rewrite delete_insert_eq. split; [reflexivity|]. split.
  - apply lookup_delete_eq.
  - intros Hfree. rewrite delete_id by exact Hfree.
    destruct c; simpl in *; subst; reflexivity.
Qed.

(** ** [sendRequest] *)



(** Whenever [sendRequest] returns it has advanced the counter by one
    allocation, removed its slot from the table and released the mutex; the
    send queue has grown by its one frame, or by nothing when [closeq] cut
    the send short.  The frame is the request's encoding behind an
    eight-byte header that is all zero. *)
Theorem sendRequest_returns_clean (m : Msg) (evs : list event)
    (r : option Msg * option error) c c' :
  sendRequest ops codec m evs c = Ret r c' ->
  seq c' = wrap32 (seq c + 1) /\
  (sendq c' = sendq c ++ [make_bytes 8 ++ Encode codec m] \/
   sendq c' = sendq c) /\
  reqs c' = delete (wrap32 (seq c + 1)) (reqs c) /\
  feeds c' = feeds c /\
  node c' = node c /\
  calls c' = calls c /\
  mx c' = false.
Proof.
  unfold sendRequest, addRequest, delRequest, sendMsg, sendRaw, nextSeq.
  unfold_M. simpl.
  destruct (mx c); [discriminate|]. simpl.
  match goal with
  | |- context [select_wait sendRaw_cases ?t] =>
      destruct (select_wait sendRaw_cases t) as [sent|]
  end; [|discriminate].
  destruct sent; simpl;
    (match goal with
     | |- context [select_wait ?cs ?t] => destruct (select_wait cs t)
     end; [|discriminate]);
    simpl; intros [= _ <-]; simpl; rewrite delete_insert_eq;
    repeat split; auto.
Qed.



(** An event that neither closes [closeq] nor receives from a slot. *)
Local Abbreviation quiet_event :=
  (fun e : event =>
     e <> ev_close chan_closeq /\
     (forall w, e <> ev_send chan_closeq w) /\
     (forall id, e <> ev_recv (chan_rq id))).

Lemma quiet_event_sendRaw (e : event) :
  quiet_event e ->
  (e = ev_recv chan_sendq /\ select_case sendRaw_cases e = Some true) \/
  (e <> ev_recv chan_sendq /\ select_case sendRaw_cases e = None).
Proof.
  intros (Hc & Hs & Hr).
  destruct e as [ch w|ch|ch]; destruct ch; simpl;
    first [ right; split; [discriminate|reflexivity]
          | left; split; reflexivity
          | exfalso;
            first [ apply Hc; reflexivity
                  | eapply Hs; reflexivity
                  | eapply Hr; reflexivity ] ].
Qed.

Lemma quiet_events_sendRaw (evs : list event) :
  Forall quiet_event evs ->
  ((In (ev_recv chan_sendq) evs /\
    select_wait sendRaw_cases evs = Some true) \/
   (~ In (ev_recv chan_sendq) evs /\
    select_wait sendRaw_cases evs = None)) /\
  Forall quiet_event (select_rest sendRaw_cases evs).
Proof.
  induction 1 as [|e evs He Hall [IH1 IH2]].
  - split; [right; split; [intros []|reflexivity]|constructor].
  - cbn [select_wait select_rest].
    destruct (quiet_event_sendRaw e He) as [[-> E]|[Hne E]]; rewrite E.
    + split; [left; split; [left; reflexivity|reflexivity]|exact Hall].
    + split; [|constructor; assumption].
      destruct IH1 as [[Hin Hw]|[Hout Hw]].
      * left. split; [right; exact Hin|exact Hw].
      * right. split; [|exact Hw]. intros [Heq|Hin]; [congruence|contradiction].
Qed.

(** Without a timeout ([ResponseTimeout <= 0]) there is no timer: with
    nothing pending from before, as long as [closeq] is not closed and no
    goroutine receives from a slot, [sendRequest] does not return, and its
    slot stays in the table.  Its frame is in the queue exactly when the
    transport took one. *)
Theorem sendRequest_waits_without_timeout (m : Msg) (evs : list event) c :
  mx c = false ->
  world c = [] ->
  ResponseTimeout ops (node c) <= 0 ->
  Forall (fun e => e <> ev_close chan_closeq /\
                   (forall w, e <> ev_send chan_closeq w) /\
                   (forall id, e <> ev_recv (chan_rq id))) evs ->
  exists c',
    sendRequest ops codec m evs c = Parked c' /\
    reqs c' !! wrap32 (seq c + 1) = Some (chan_rq (wrap32 (seq c + 1))) /\
    (In (ev_recv chan_sendq) evs ->
     sendq c' = sendq c ++ [make_bytes 8 ++ Encode codec m]) /\
    (~ In (ev_recv chan_sendq) evs -> sendq c' = sendq c).
Proof.
  intros Hmx Hw Hrt Hevs.
  destruct (quiet_events_sendRaw evs Hevs) as [Hsel Hrest].
  unfold sendRequest, addRequest, delRequest, sendMsg, sendRaw, nextSeq.
  unfold_M. simpl. rewrite Hmx. simpl. rewrite Hw. simpl.
  replace (0 <? ResponseTimeout ops (node c)) with false
    by (symmetry; apply Z.ltb_ge; exact Hrt).
  destruct Hsel as [[Hin ->]|[Hout ->]]; simpl.
  2:{ eexists. split; [reflexivity|]. simpl. rewrite lookup_insert_eq.
      repeat split; auto. intros Hin. contradiction. }
  match goal with
  | |- context [select_wait ?cs ?t] =>
      assert (Hnone : select_wait cs t = None)
  end.
  { induction Hrest as [|e rest (Hc & Hs & Hr) _ IH]; [reflexivity|].
    simpl. destruct e as [ch w|ch|ch]; simpl.
    - destruct ch; simpl; try exact IH. destruct (Hs w eq_refl).
    - destruct ch; simpl; try exact IH. destruct (Hr id eq_refl).
    - destruct ch; simpl; try exact IH. destruct (Hc eq_refl). }
  rewrite Hnone. eexists. split; [reflexivity|]. simpl.
  rewrite lookup_insert_eq. repeat split; auto. intros Hout. contradiction.
Qed.

End conn_requests.

Lemma addRequest_isResponse_witness :
  exists c1,
    addRequest 4 (chan_rq 4) conn_a = Ret tt c1 /\
    isResponse 4 c1 = Ret (Some (chan_rq 4)) c1 /\
    (forall k, k <> 4 -> isResponse k c1 = Ret (reqs conn_a !! k) c1) /\
    feeds c1 = feeds conn_a /\ seq c1 = seq conn_a /\ sendq c1 = sendq conn_a.
Proof.
  apply (addRequest_isResponse 4 (chan_rq 4) conn_a). reflexivity.
Defined.

Lemma addRequest_delRequest_witness :
  exists c2,
    (addRequest 4 (chan_rq 4) ;; delRequest 4) conn_a = Ret tt c2 /\
    reqs c2 = delete 4 (reqs conn_a) /\
    reqs c2 !! 4 = None /\
    (reqs conn_a !! 4 = None -> c2 = conn_a).
Proof.
  apply (addRequest_delRequest 4 (chan_rq 4) conn_a). reflexivity.
Defined.

Lemma sendRequest_returns_clean_witness :
  let c' :=
    set_world [ev_close chan_closeq]
      (set_sendq [encodeMsg tag_codec 1 0 msg_RqList] (set_seq 1 conn_a)) in
  seq c' = wrap32 (seq conn_a + 1) /\
  (sendq c' = sendq conn_a ++ [make_bytes 8 ++ Encode tag_codec msg_RqList] \/
   sendq c' = sendq conn_a) /\
  reqs c' = delete (wrap32 (seq conn_a + 1)) (reqs conn_a) /\
  feeds c' = feeds conn_a /\
  node c' = node conn_a /\
  calls c' = calls conn_a /\
  mx c' = false.
Proof.
  apply (sendRequest_returns_clean small_ops tag_codec msg_RqList
           [ev_recv chan_sendq; ev_close chan_closeq]
           (None, Some ErrClosed) conn_a).
  vm_compute. reflexivity.
Defined.

(** When [closeq] is closed before the transport takes the frame, the call
    returns [ErrClosed] with nothing queued. *)
Example sendRequest_closed_before_send :
  sendRequest small_ops tag_codec msg_RqList
    [ev_close chan_closeq; ev_recv chan_sendq] conn_a
  = Ret (None, Some ErrClosed)
      (set_world [ev_close chan_closeq; ev_recv chan_sendq]
         (set_seq 1 conn_a)).
Proof. vm_compute. reflexivity. Qed.

(** With a transport that takes nothing the call stays in [sendRaw], also
    after the timer has fired. *)
Example sendRequest_full_queue :
  sendRequest small_ops tag_codec msg_RqList [ev_send chan_timer None] conn_a
  = Parked
      (set_world [ev_send chan_timer None]
         (set_reqs {[ 1 := chan_rq 1 ]} (set_seq 1 conn_a))).
Proof. vm_compute. reflexivity. Qed.

(** What was pending before the call still counts: a free place in the
    queue takes the frame, and a [closeq] closed earlier ends the call. *)
Example sendRequest_on_pending_world :
  sendRequest small_ops tag_codec msg_RqList [ev_close chan_closeq]
    conn_a_ready
  = Ret (None, Some ErrClosed)
      (set_world [ev_recv chan_sendq; ev_close chan_closeq]
         (set_sendq [encodeMsg tag_codec 1 0 msg_RqList]
            (set_seq 1 conn_a))) /\
  sendRequest small_ops tag_codec msg_RqList [ev_send chan_timer None]
    (set_world [ev_close chan_closeq] conn_a)
  = Ret (None, Some ErrClosed)
      (set_world [ev_close chan_closeq] (set_seq 1 conn_a)).
Proof. vm_compute. split; reflexivity. Qed.



Lemma sendRequest_waits_without_timeout_witness :
  exists c',
    sendRequest small_ops_no_timeout tag_codec msg_RqList
      [ev_recv chan_sendq; ev_send (chan_rq 1) (Some msg_Ok);
       ev_send chan_timer None] conn_a
    = Parked c' /\
    reqs c' !! wrap32 (seq conn_a + 1)
    = Some (chan_rq (wrap32 (seq conn_a + 1))) /\
    (In (ev_recv chan_sendq)
        [ev_recv chan_sendq; ev_send (chan_rq 1) (Some msg_Ok);
         ev_send chan_timer None] ->
     sendq c' = sendq conn_a
                ++ [make_bytes 8 ++ Encode tag_codec msg_RqList]) /\
    (~ In (ev_recv chan_sendq)
         [ev_recv chan_sendq; ev_send (chan_rq 1) (Some msg_Ok);
          ev_send chan_timer None] ->
     sendq c' = sendq conn_a).
Proof.
  apply (sendRequest_waits_without_timeout small_ops_no_timeout tag_codec
           msg_RqList
           [ev_recv chan_sendq; ev_send (chan_rq 1) (Some msg_Ok);
            ev_send chan_timer None]
           conn_a).
  - reflexivity.
  - reflexivity.
  - simpl. lia.
  - repeat constructor; try discriminate.
Defined.

Section conn_dispatch.

Context {Node : Type} (ops : NodeOps Node) (codec : MsgCodec).

Implicit Types c : Conn Node.

(** ** The receive loop *)

(** A frame whose response-sequence number has a slot in the table goes to
    that slot, whatever message it carries: no handler runs and the
    connection is as before. *)
Theorem receiving_frame_routes_to_slot (raw : list byte) (m : Msg)
    (rq : chan) c :
  mx c = false ->
  (9 <= length raw)%nat ->
  Decode codec (drop 4 (drop 4 raw)) = inl m ->
  reqs c !! Uint32 (drop 4 raw) = Some rq ->
  receiving_frame ops codec raw c = Ret (loop_send rq m) c.
Proof.
  intros Hmx Hlen Hdec Hrq. unfold receiving_frame, isResponse. unfold_M.
  replace (length raw <? 9)%nat with false
    by (symmetry; apply Nat.ltb_ge; exact Hlen).
  rewrite Hdec, Hmx. simpl. rewrite Hrq.
  rewrite set_mx_restore by exact Hmx. reflexivity.
Qed.

(** A reply ([Ok], [Err] or [List]) whose response-sequence number has no
    slot, because the request is not pending any more or never was, is not
    dropped: [handle] refuses its type, the loop prints the error and
    returns. *)
Theorem receiving_frame_late_reply_stops (raw : list byte) (m : Msg) c :
  mx c = false ->
  (9 <= length raw)%nat ->
  Decode codec (drop 4 (drop 4 raw)) = inl m ->
  reqs c !! Uint32 (drop 4 raw) = None ->
  m = msg_Ok \/ (exists s, m = msg_Err s) \/ (exists l, m = msg_List l) ->
  exists text,
    receiving_frame ops codec raw c
    = Ret loop_return (set_calls (calls c ++ [call_Print text]) c).
Proof.
  intros Hmx Hlen Hdec Hrq Hm.
  unfold receiving_frame, isResponse, fatality, closeWithError. unfold_M.
  replace (length raw <? 9)%nat with false
    by (symmetry; apply Nat.ltb_ge; exact Hlen).
  rewrite Hdec, Hmx. simpl. rewrite Hrq.
  destruct Hm as [->|[[s ->]|[l ->]]]; simpl; unfold_M; simpl;
    rewrite set_mx_restore by exact Hmx; eexists; reflexivity.
Qed.

(** [RootDone], [RootErr], [Object] and [RqPreview] frames that are not
    replies are read and ignored: the loop goes on with the connection as
    it was, and nothing is queued for the peer. *)
Theorem receiving_frame_ignores_unhandled (raw : list byte) (m : Msg) c :
  mx c = false ->
  (9 <= length raw)%nat ->
  Decode codec (drop 4 (drop 4 raw)) = inl m ->
  reqs c !! Uint32 (drop 4 raw) = None ->
  match m with
  | msg_RootDone _ _ _ | msg_RootErr _ _ _ _ | msg_Object _ _
  | msg_RqPreview _ => True
  | _ => False
  end ->
  receiving_frame ops codec raw c = Ret loop_continue c.
Proof.
  intros Hmx Hlen Hdec Hrq Hm.
  unfold receiving_frame, isResponse. unfold_M.
  replace (length raw <? 9)%nat with false
    by (symmetry; apply Nat.ltb_ge; exact Hlen).
  rewrite Hdec, Hmx. simpl. rewrite Hrq.
  destruct m; try destruct Hm; simpl;
    rewrite set_mx_restore by exact Hmx; reflexivity.
Qed.


(** ** Inbound subscriptions *)

(** When the transport takes a frame, every inbound [Sub] gets exactly one:
    the request's sequence number in bytes 0 to 3, zeros in bytes 4 to 7
    (this is how [encodeMsg] lays out the reply's two numbers), then the
    encoding of an [Ok], and then the feed is not blank and has a Feed
    State, or of an [Err], and then the feed map is as before.
    [handleSub] returns no error, releases the mutex and keeps the entries
    the map had. *)
Theorem handleSub_one_reply (rseq : Z) (Feed : PubKey) (w : list event) c :
  mx c = false ->
  world c = ev_recv chan_sendq :: w ->
  exists c' m,
    handleSub ops codec rseq Feed c = Ret None c' /\
    sendq c' = sendq c
               ++ [PutUint32 (make_bytes 4) rseq ++ make_bytes 4
                   ++ Encode codec m] /\
    world c' = w /\
    seq c' = wrap32 (seq c + 1) /\
    reqs c' = reqs c /\
    mx c' = false /\
    ((m = msg_Ok /\ Feed <> blank_PubKey /\ is_Some (feeds c' !! Feed)) \/
     ((exists s, m = msg_Err s) /\ feeds c' = feeds c)) /\
    (forall k, is_Some (feeds c !! k) -> is_Some (feeds c' !! k)).
Proof.
  intros Hmx Hw. unfold handleSub.
  destruct (decide (Feed = blank_PubKey)) as [Hb|Hb].
  { unfold sendErr, sendMsg, sendRaw, nextSeq. unfold_M. simpl.
    rewrite Hw. simpl.
    do 2 eexists. split; [reflexivity|]. simpl.
    repeat split; eauto. }
  unfold sendErr, sendOk, sendMsg, sendRaw, nextSeq. unfold_M.
  rewrite Hmx. simpl.
  destruct (decide (is_Some (feeds c !! Feed))) as [Hs|Hs]; simpl.
  { rewrite Hw. simpl.
    do 2 eexists. split; [reflexivity|]. simpl. repeat split; auto. }
  destruct (onSubscribeRemote ops Feed (node c)) as [n1 [e|]]; simpl.
  { rewrite Hw. simpl.
    do 2 eexists. split; [reflexivity|]. simpl. repeat split; eauto. }
  destruct (fc_has ops Feed n1); simpl; rewrite Hw; simpl.
  - do 2 eexists. split; [reflexivity|]. simpl. repeat split; auto.
    + left. repeat split; auto. rewrite lookup_insert_eq. eauto.
    + intros k Hk. rewrite lookup_insert_is_Some.
      destruct (decide (Feed = k)); auto.
  - do 2 eexists. split; [reflexivity|]. simpl. repeat split; eauto.
Qed.

(** The grant: a feed that is not blank and has no Feed State yet, that the
    node's callback accepts and the node shares, gets a fresh Feed State
    and the node records the connection for the feed, whether the reply
    gets out or not; when the transport takes the frame, [handleSub]
    returns and the frame holds the request's sequence number, four zero
    bytes and an [Ok]. *)
Theorem handleSub_grants (rseq : Z) (Feed : PubKey) (n1 : Node) c :
  mx c = false ->
  Feed <> blank_PubKey ->
  feeds c !! Feed = None ->
  onSubscribeRemote ops Feed (node c) = (n1, None) ->
  fc_has ops Feed n1 = true ->
  (feeds (state_of (handleSub ops codec rseq Feed c))
   = <[Feed := new_connFeed]> (feeds c) /\
   node (state_of (handleSub ops codec rseq Feed c))
   = addConnFeed ops Feed n1) /\
  (forall w, world c = ev_recv chan_sendq :: w ->
   exists c',
     handleSub ops codec rseq Feed c = Ret None c' /\
     feeds c' = <[Feed := new_connFeed]> (feeds c) /\
     node c' = addConnFeed ops Feed n1 /\
     sendq c' = sendq c
                ++ [PutUint32 (make_bytes 4) rseq ++ make_bytes 4
                    ++ Encode codec msg_Ok]).
Proof.
  intros Hmx Hb Hf Hcb Hfc. unfold handleSub.
  rewrite decide_False by exact Hb.
  unfold sendErr, sendOk, sendMsg, sendRaw, nextSeq. unfold_M.
  rewrite Hmx. simpl.
  rewrite decide_False by (rewrite Hf; apply is_Some_None).
  simpl. rewrite Hcb. simpl. rewrite Hfc. simpl. split.
  - destruct (select_wait sendRaw_cases (world c)) as [[|]|]; simpl;
      split; reflexivity.
  - intros w Hw. rewrite Hw. simpl.
    eexists. split; [reflexivity|]. simpl. auto.
Qed.

(** A subscription the node's callback rejects makes no Feed State, and
    the node is not asked whether it shares the feed, whether the reply
    gets out or not; when the transport takes the frame, [handleSub]
    returns and the frame holds the request's sequence number, four zero
    bytes and an [Err] with the callback's error text. *)
Theorem handleSub_rejected_by_callback (rseq : Z) (Feed : PubKey)
    (n1 : Node) (e : error) c :
  mx c = false ->
  Feed <> blank_PubKey ->
  feeds c !! Feed = None ->
  onSubscribeRemote ops Feed (node c) = (n1, Some e) ->
  (feeds (state_of (handleSub ops codec rseq Feed c)) = feeds c /\
   node (state_of (handleSub ops codec rseq Feed c)) = n1) /\
  (forall w, world c = ev_recv chan_sendq :: w ->
   exists c',
     handleSub ops codec rseq Feed c = Ret None c' /\
     feeds c' = feeds c /\
     node c' = n1 /\
     sendq c' = sendq c
                ++ [PutUint32 (make_bytes 4) rseq ++ make_bytes 4
                    ++ Encode codec (msg_Err (Error ops e))]).
Proof.
  intros Hmx Hb Hf Hcb. unfold handleSub.
  rewrite decide_False by exact Hb.
  unfold sendErr, sendOk, sendMsg, sendRaw, nextSeq. unfold_M.
  rewrite Hmx. simpl.
  rewrite decide_False by (rewrite Hf; apply is_Some_None).
  simpl. rewrite Hcb. simpl. split.
  - destruct (select_wait sendRaw_cases (world c)) as [[|]|]; simpl;
      split; reflexivity.
  - intros w Hw. rewrite Hw. simpl.
    eexists. split; [reflexivity|]. simpl. auto.
Qed.

(** A subscription to a feed the node does not share makes no Feed State
    and does not record the connection for the feed, whether the reply
    gets out or not; when the transport takes the frame, [handleSub]
    returns and the frame holds the request's sequence number, four zero
    bytes and the [Err] "not share the feed". *)
Theorem handleSub_feed_not_shared (rseq : Z) (Feed : PubKey) (n1 : Node) c :
  mx c = false ->
  Feed <> blank_PubKey ->
  feeds c !! Feed = None ->
  onSubscribeRemote ops Feed (node c) = (n1, None) ->
  fc_has ops Feed n1 = false ->
  (feeds (state_of (handleSub ops codec rseq Feed c)) = feeds c /\
   node (state_of (handleSub ops codec rseq Feed c)) = n1) /\
  (forall w, world c = ev_recv chan_sendq :: w ->
   exists c',
     handleSub ops codec rseq Feed c = Ret None c' /\
     feeds c' = feeds c /\
     node c' = n1 /\
     sendq c' = sendq c
                ++ [PutUint32 (make_bytes 4) rseq ++ make_bytes 4
                    ++ Encode codec (msg_Err "not share the feed")]).
Proof.
  intros Hmx Hb Hf Hcb Hfc. unfold handleSub.
  rewrite decide_False by exact Hb.
  unfold sendErr, sendOk, sendMsg, sendRaw, nextSeq. unfold_M.
  rewrite Hmx. simpl.
  rewrite decide_False by (rewrite Hf; apply is_Some_None).
  simpl. rewrite Hcb. simpl. rewrite Hfc. simpl. split.
  - destruct (select_wait sendRaw_cases (world c)) as [[|]|]; simpl;
      split; reflexivity.
  - intros w Hw. rewrite Hw. simpl.
    eexists. split; [reflexivity|]. simpl. auto.
Qed.

(** With a transport that takes no frame and [closeq] open, [handleSub]
    does not return, and for a feed that is not blank it stays there with
    the connection's mutex held. *)
Lemma handleSub_waits_on_transport (rseq : Z) (Feed : PubKey) c :
  mx c = false ->
  Feed <> blank_PubKey ->
  select_wait sendRaw_cases (world c) = None ->
  exists c',
    handleSub ops codec rseq Feed c = Parked c' /\
    mx c' = true /\
    sendq c' = sendq c.
Proof.
  intros Hmx Hb Hw. unfold handleSub.
  rewrite decide_False by exact Hb.
  unfold sendErr, sendOk, sendMsg, sendRaw, nextSeq. unfold_M.
  rewrite Hmx. simpl.
  destruct (decide (is_Some (feeds c !! Feed))) as [Hs|Hs]; simpl.
  { rewrite Hw. eexists. split; [reflexivity|]. split; reflexivity. }
  destruct (onSubscribeRemote ops Feed (node c)) as [n1 [e|]]; simpl.
  { rewrite Hw. eexists. split; [reflexivity|]. split; reflexivity. }
  destruct (fc_has ops Feed n1); simpl; rewrite Hw;
    (eexists; split; [reflexivity|]; split; reflexivity).
Qed.

(** [handleSub] never brings the blank key into the feed map. *)
Theorem handleSub_keeps_blank_out (rseq : Z) (Feed : PubKey)
    (r : option error) c c' :
  feeds c !! blank_PubKey = None ->
  handleSub ops codec rseq Feed c = Ret r c' ->
  feeds c' !! blank_PubKey = None.
Proof.
  intros Hblank. unfold handleSub.
  destruct (decide (Feed = blank_PubKey)) as [Hb|Hb].
  { unfold sendErr, sendMsg, sendRaw, nextSeq. unfold_M. simpl.
    destruct (select_wait sendRaw_cases (world c)) as [[|]|]; simpl;
      try discriminate; intros [= _ <-]; exact Hblank. }
  unfold sendErr, sendOk, sendMsg, sendRaw, nextSeq. unfold_M.
  destruct (mx c); [discriminate|]. simpl.
  destruct (decide (is_Some (feeds c !! Feed))) as [Hs|Hs]; simpl.
  { destruct (select_wait sendRaw_cases (world c)) as [[|]|]; simpl;
      try discriminate; intros [= _ <-]; exact Hblank. }
  destruct (onSubscribeRemote ops Feed (node c)) as [n1 [e|]]; simpl.
  { destruct (select_wait sendRaw_cases (world c)) as [[|]|]; simpl;
      try discriminate; intros [= _ <-]; exact Hblank. }
  destruct (fc_has ops Feed n1); simpl;
    destruct (select_wait sendRaw_cases (world c)) as [[|]|]; simpl;
    try discriminate; intros [= _ <-]; simpl;
    try (rewrite lookup_insert_ne by exact Hb); exact Hblank.
Qed.

(** An inbound [Unsub] changes nothing: the Feed State of the feed, if
    there is one, stays in the map, and nothing is sent. *)
Theorem handleUnsub_no_effect (rseq : Z) (Feed : PubKey) c :
  mx c = false ->
  handleUnsub rseq Feed c = Ret None c.
Proof.
  intros Hmx. unfold handleUnsub.
  destruct (decide (Feed = blank_PubKey)); [reflexivity|].
  unfold_M. rewrite Hmx. simpl.
  destruct (feeds c !! Feed); simpl;
    rewrite set_mx_restore by exact Hmx; reflexivity.
Qed.

(** ** The list of feeds *)

(** When the transport takes a frame, a list request gets exactly one:
    the request's sequence number in bytes 0 to 3, zeros in bytes 4 to 7,
    then the node's feeds when the node is public, and otherwise an [Err]
    with the text of [ErrNotPublic], which names no feed.  Feed map,
    request table and node stay as they are. *)
Theorem handleRqList_reply (rseq : Z) (w : list event) c :
  world c = ev_recv chan_sendq :: w ->
  exists c',
    handleRqList ops codec rseq c = Ret None c' /\
    sendq c' = sendq c
               ++ [PutUint32 (make_bytes 4) rseq ++ make_bytes 4
                   ++ Encode codec
                        (if Public ops (node c)
                         then msg_List (node_Feeds ops (node c))
                         else msg_Err (sentinel_text ops ErrNotPublic))] /\
    world c' = w /\
    seq c' = wrap32 (seq c + 1) /\
    feeds c' = feeds c /\
    reqs c' = reqs c /\
    node c' = node c.
Proof.
  intros Hw.
  unfold handleRqList, sendErr, sendMsg, sendRaw, nextSeq. unfold_M.
  destruct (Public ops (node c)); simpl; rewrite Hw; simpl;
    (eexists; split; [reflexivity|]; simpl; repeat split).
Qed.

End conn_dispatch.

Lemma receiving_frame_routes_to_slot_witness :
  receiving_frame small_ops tag_codec [7; 0; 0; 0; 1; 0; 0; 0; 1; 9]
    (set_reqs {[ 1 := chan_rq 1 ]} conn_a)
  = Ret (loop_send (chan_rq 1) (msg_Sub [9]))
      (set_reqs {[ 1 := chan_rq 1 ]} conn_a).
Proof.
  apply (receiving_frame_routes_to_slot small_ops tag_codec
           [7; 0; 0; 0; 1; 0; 0; 0; 1; 9] (msg_Sub [9]) (chan_rq 1)
           (set_reqs {[ 1 := chan_rq 1 ]} conn_a)).
  - reflexivity.
  - simpl. lia.
  - reflexivity.
  - vm_compute. reflexivity.
Defined.

Lemma receiving_frame_late_reply_stops_witness :
  exists text,
    receiving_frame small_ops tag_codec [7; 0; 0; 0; 1; 0; 0; 0; 5] conn_a
    = Ret loop_return (set_calls (calls conn_a ++ [call_Print text]) conn_a).
Proof.
  apply (receiving_frame_late_reply_stops small_ops tag_codec
           [7; 0; 0; 0; 1; 0; 0; 0; 5] msg_Ok conn_a).
  - reflexivity.
  - simpl. lia.
  - reflexivity.
  - vm_compute. reflexivity.
  - left. reflexivity.
Defined.

Lemma receiving_frame_ignores_unhandled_witness :
  receiving_frame small_ops tag_codec_more [7; 0; 0; 0; 0; 0; 0; 0; 8; 1]
    conn_a
  = Ret loop_continue conn_a.
Proof.
  apply (receiving_frame_ignores_unhandled small_ops tag_codec_more
           [7; 0; 0; 0; 0; 0; 0; 0; 8; 1] (msg_RootDone [1] 0 0) conn_a).
  - reflexivity.
  - simpl. lia.
  - reflexivity.
  - vm_compute. reflexivity.
  - exact I.
Defined.


Lemma handleSub_one_reply_witness :
  exists c' m,
    handleSub small_ops tag_codec 9 feed_a conn_a_ready = Ret None c' /\
    sendq c' = sendq conn_a_ready
               ++ [PutUint32 (make_bytes 4) 9 ++ make_bytes 4
                   ++ Encode tag_codec m] /\
    world c' = [ev_recv chan_sendq] /\
    seq c' = wrap32 (seq conn_a_ready + 1) /\
    reqs c' = reqs conn_a_ready /\
    mx c' = false /\
    ((m = msg_Ok /\ feed_a <> blank_PubKey /\ is_Some (feeds c' !! feed_a)) \/
     ((exists s, m = msg_Err s) /\ feeds c' = feeds conn_a_ready)) /\
    (forall k, is_Some (feeds conn_a_ready !! k) -> is_Some (feeds c' !! k)).
Proof.
  apply (handleSub_one_reply small_ops tag_codec 9 feed_a
           [ev_recv chan_sendq] conn_a_ready).
  - reflexivity.
  - reflexivity.
Defined.

Lemma handleSub_grants_witness :
  (feeds (state_of (handleSub small_ops tag_codec 9 feed_a conn_a_ready))
   = <[feed_a := new_connFeed]> (feeds conn_a_ready) /\
   node (state_of (handleSub small_ops tag_codec 9 feed_a conn_a_ready))
   = addConnFeed small_ops feed_a node_a) /\
  (forall w, world conn_a_ready = ev_recv chan_sendq :: w ->
   exists c',
     handleSub small_ops tag_codec 9 feed_a conn_a_ready = Ret None c' /\
     feeds c' = <[feed_a := new_connFeed]> (feeds conn_a_ready) /\
     node c' = addConnFeed small_ops feed_a node_a /\
     sendq c' = sendq conn_a_ready
                ++ [PutUint32 (make_bytes 4) 9 ++ make_bytes 4
                    ++ Encode tag_codec msg_Ok]).
Proof.
  apply (handleSub_grants small_ops tag_codec 9 feed_a node_a conn_a_ready).
  - reflexivity.
  - discriminate.
  - reflexivity.
  - reflexivity.
  - vm_compute. reflexivity.
Defined.

Lemma handleSub_rejected_by_callback_witness :
  (feeds (state_of (handleSub small_ops_rejecting tag_codec 9 feed_a
                      conn_a_ready))
   = feeds conn_a_ready /\
   node (state_of (handleSub small_ops_rejecting tag_codec 9 feed_a
                     conn_a_ready))
   = node_a) /\
  (forall w, world conn_a_ready = ev_recv chan_sendq :: w ->
   exists c',
     handleSub small_ops_rejecting tag_codec 9 feed_a conn_a_ready
     = Ret None c' /\
     feeds c' = feeds conn_a_ready /\
     node c' = node_a /\
     sendq c' = sendq conn_a_ready
                ++ [PutUint32 (make_bytes 4) 9 ++ make_bytes 4
                    ++ Encode tag_codec
                         (msg_Err (Error small_ops_rejecting
                                     (errors_New "not welcome")))]).
Proof.
  apply (handleSub_rejected_by_callback small_ops_rejecting tag_codec 9
           feed_a node_a (errors_New "not welcome") conn_a_ready).
  - reflexivity.
  - discriminate.
  - reflexivity.
  - reflexivity.
Defined.

Lemma handleSub_feed_not_shared_witness :
  (feeds (state_of (handleSub small_ops tag_codec 9 feed_b conn_a_ready))
   = feeds conn_a_ready /\
   node (state_of (handleSub small_ops tag_codec 9 feed_b conn_a_ready))
   = node_a) /\
  (forall w, world conn_a_ready = ev_recv chan_sendq :: w ->
   exists c',
     handleSub small_ops tag_codec 9 feed_b conn_a_ready = Ret None c' /\
     feeds c' = feeds conn_a_ready /\
     node c' = node_a /\
     sendq c' = sendq conn_a_ready
                ++ [PutUint32 (make_bytes 4) 9 ++ make_bytes 4
                    ++ Encode tag_codec (msg_Err "not share the feed")]).
Proof.
  apply (handleSub_feed_not_shared small_ops tag_codec 9 feed_b node_a
           conn_a_ready).
  - reflexivity.
  - discriminate.
  - reflexivity.
  - reflexivity.
  - vm_compute. reflexivity.
Defined.

(** The reply to a granted [Sub] as the peer's decoder reads it: the
    request's number 9 sits in the sequence field, the response-sequence
    field is 0. *)
Example handleSub_reply_on_the_wire :
  exists c',
    handleSub small_ops tag_codec 9 feed_a conn_a_ready = Ret None c' /\
    sendq c' = [[9; 0; 0; 0; 0; 0; 0; 0; 5]] /\
    decodeRaw tag_codec [9; 0; 0; 0; 0; 0; 0; 0; 5]
    = (9, 0, Some msg_Ok, None).
Proof. eexists. vm_compute. repeat split; reflexivity. Qed.

Lemma handleSub_keeps_blank_out_witness :
  feeds (set_world [ev_recv chan_sendq]
           (set_sendq [encodeMsg tag_codec 1 9 msg_Ok]
              (set_seq 1 conn_a_subscribed))) !! blank_PubKey = None.
Proof.
  apply (handleSub_keeps_blank_out small_ops tag_codec 9 feed_a None
           conn_a_ready
           (set_world [ev_recv chan_sendq]
              (set_sendq [encodeMsg tag_codec 1 9 msg_Ok]
                 (set_seq 1 conn_a_subscribed)))).
  - reflexivity.
  - vm_compute. reflexivity.
Defined.

Lemma handleRqList_reply_witness :
  exists c',
    handleRqList small_ops tag_codec 9 conn_a_ready = Ret None c' /\
    sendq c' = sendq conn_a_ready
               ++ [PutUint32 (make_bytes 4) 9 ++ make_bytes 4
                   ++ Encode tag_codec
                        (if Public small_ops (node conn_a_ready)
                         then msg_List (node_Feeds small_ops
                                          (node conn_a_ready))
                         else msg_Err (sentinel_text small_ops ErrNotPublic))]
    /\
    world c' = [ev_recv chan_sendq] /\
    seq c' = wrap32 (seq conn_a_ready + 1) /\
    feeds c' = feeds conn_a_ready /\
    reqs c' = reqs conn_a_ready /\
    node c' = node conn_a_ready.
Proof.
  apply (handleRqList_reply small_ops tag_codec 9 [ev_recv chan_sendq]
           conn_a_ready).
  reflexivity.
Defined.

Lemma handleUnsub_no_effect_witness :
  handleUnsub 9 feed_a conn_a_subscribed = Ret None conn_a_subscribed.
Proof.
  apply (handleUnsub_no_effect 9 feed_a conn_a_subscribed). reflexivity.
Defined.

Section conn_roots_and_api.

Context {Node : Type} (ops : NodeOps Node) (codec : MsgCodec).

Implicit Types c : Conn Node.

(** ** Root announcements on the other paths *)

(** A Root announced on a feed the connection is not subscribed to is
    ignored before the store sees it: the connection and the node are as
    they were. *)
Theorem handleRoot_not_subscribed (Feed : PubKey) (Sig Value : list byte) c :
  mx c = false ->
  feeds c !! Feed = None ->
  handleRoot ops Feed Sig Value c = Ret None c.
Proof.
  intros Hmx Hf. unfold handleRoot. unfold_M. rewrite Hmx. simpl.
  rewrite Hf. simpl. rewrite set_mx_restore by exact Hmx. reflexivity.
Qed.

(** A Root the store accepts and does not hold in full, with a sequence
    number above that of the store's latest Root of the head, or of a head
    the store has no Root of, is handed to the filler once, under the Feed
    State of the announced feed; the connection's own state is as it
    was. *)
Theorem handleRoot_newer_filled (Feed : PubKey) (Sig Value : list byte)
    (cf : connFeed) (n' : Node) (r : Root) (last : option Root)
    (err : option error) c :
  mx c = false ->
  feeds c !! Feed = Some cf ->
  ReceivedRoot ops Sig Value (node c) = (n', inl r) ->
  IsFull r = false ->
  LastRoot ops (Pub r) (Nonce r) n' = (last, err) ->
  err = None \/ err = Some ErrNotFound ->
  (forall l, last = Some l -> Seq l < Seq r) ->
  exists c',
    handleRoot ops Feed Sig Value c = Ret None c' /\
    filling c' = filling c ++ [(cf, r)] /\
    conn_state c' = conn_state c /\
    node c' = n'.
Proof.
  intros Hmx Hf Hrr Hfull Hlast Herr Hnew. unfold handleRoot. unfold_M.
  rewrite Hmx. simpl. rewrite Hf. simpl. rewrite Hrr. simpl.
  rewrite Hfull. simpl. rewrite Hlast.
  assert (Hgo : match last with
                | Some l => (Seq r <=? Seq l) = false
                | None => True
                end).
  { destruct last as [l|]; [|exact I].
    apply Z.leb_gt. apply Hnew. reflexivity. }
  assert (Hdone : forall c0 : Conn Node,
            filling (set_calls (calls c0 ++ [call_addToFiller cf r]) c0)
            = filling c0 ++ [(cf, r)]).
  { intros c0. unfold filling. simpl. rewrite omap_app. reflexivity. }
  destruct Herr as [->| ->]; [|rewrite decide_True by reflexivity];
    (destruct last as [l|]; [rewrite Hgo|]); simpl;
    (eexists; split; [reflexivity|]);
    unfold conn_state, filling; simpl; rewrite omap_app, Hmx; auto.
Qed.

(** On every path [handleRoot] returns no error and leaves the
    connection's own state as it was: it queues no frame and changes
    neither the feed map nor the request table.  What it hands to the
    filler is at most the one announced Root, and then one the store
    accepted and does not hold in full. *)
Theorem handleRoot_only_fills (Feed : PubKey) (Sig Value : list byte) c :
  mx c = false ->
  exists c',
    handleRoot ops Feed Sig Value c = Ret None c' /\
    conn_state c' = conn_state c /\
    (filling c' = filling c \/
     exists cf r n',
       feeds c !! Feed = Some cf /\
       ReceivedRoot ops Sig Value (node c) = (n', inl r) /\
       IsFull r = false /\
       filling c' = filling c ++ [(cf, r)]).
Proof.
  intros Hmx. unfold handleRoot. unfold_M. rewrite Hmx. simpl.
  assert (Hst : forall (n : Node) (l : list Call),
            conn_state (set_mx false (set_calls l (set_node n (set_mx true c))))
            = conn_state c).
  { intros n l. unfold conn_state. simpl. rewrite Hmx. reflexivity. }
  assert (Hst' : forall n : Node,
            conn_state (set_mx false (set_node n (set_mx true c)))
            = conn_state c).
  { intros n. unfold conn_state. simpl. rewrite Hmx. reflexivity. }
  destruct (feeds c !! Feed) as [cf|] eqn:Hf; simpl.
  2:{ eexists. split; [reflexivity|]. split; [|left; reflexivity].
      unfold conn_state. simpl. rewrite Hmx. reflexivity. }
  destruct (ReceivedRoot ops Sig Value (node c)) as [n' [r|e]] eqn:Hrr; simpl.
  2:{ eexists. split; [reflexivity|]. split; [apply Hst|]. left.
      unfold filling. simpl. rewrite omap_app. apply app_nil_r. }
  destruct (IsFull r) eqn:Hfull; simpl.
  { eexists. split; [reflexivity|]. split; [apply Hst'|]. left. reflexivity. }
  assert (Hfill : forall c0 : Conn Node,
            filling (set_calls (calls c0 ++ [call_addToFiller cf r]) c0)
            = filling c0 ++ [(cf, r)]).
  { intros c0. unfold filling. simpl. rewrite omap_app. reflexivity. }
  destruct (LastRoot ops (Pub r) (Nonce r) n') as [last err].
  destruct err as [e|]; [destruct (decide (e = ErrNotFound))|];
    try (destruct last as [l|]; [destruct (Seq r <=? Seq l)|]); simpl;
    (eexists; split; [reflexivity|]; split; [apply Hst || apply Hst'|]);
    first [ left; reflexivity
          | left; unfold filling; simpl; rewrite omap_app; apply app_nil_r
          | right; exists cf, r, n';
            split; [reflexivity|]; split; [reflexivity|];
            split; [exact Hfull|];
            unfold filling; simpl; rewrite omap_app; reflexivity ].
Qed.

(** ** The outward API *)

(** When the node refuses to share the feed, [Subscribe] returns the
    node's error: nothing is queued for the peer, no Feed State is made,
    and the mutex is free again. *)
Theorem Subscribe_share_refused (feed : PubKey) (evs : list event)
    (n' : Node) (e : error) c :
  mx c = false ->
  feeds c !! feed = None ->
  Share ops feed (node c) = (n', Some e) ->
  Subscribe ops codec feed evs c = Ret (Some e) (set_node n' c).
Proof.
  intros Hmx Hf Hshare. unfold Subscribe. unfold_M. rewrite Hmx. simpl.
  rewrite decide_False by (rewrite Hf; apply is_Some_None).
  simpl. rewrite Hshare. simpl.
  destruct c; simpl in *; subst; reflexivity.
Qed.

(** A local [Subscribe] to a feed that has no Feed State yet and that the
    node agrees to share does not return, whatever the peer does:
    [sendRequest] wants the mutex that [Subscribe] holds.  The sequence
    number is allocated, but no frame is queued and no slot registered. *)
Theorem Subscribe_new_feed_never_returns (feed : PubKey)
    (evs : list event) (n' : Node) c :
  mx c = false ->
  feeds c !! feed = None ->
  Share ops feed (node c) = (n', None) ->
  exists c',
    Subscribe ops codec feed evs c = Parked c' /\
    mx c' = true /\
    feeds c' = feeds c /\
    reqs c' = reqs c /\
    sendq c' = sendq c /\
    seq c' = wrap32 (seq c + 1).
Proof.
  intros Hmx Hf Hshare.
  unfold Subscribe, sendRequest, addRequest, nextSeq. unfold_M.
  rewrite Hmx. simpl.
  rewrite decide_False by (rewrite Hf; apply is_Some_None).
  simpl. rewrite Hshare. simpl.
  eexists. split; [reflexivity|]. simpl. auto.
Qed.

(** What [sendRequest] can return. *)
Lemma sendRequest_results (m : Msg) (evs : list event)
    (r : option Msg * option error) c c' :
  sendRequest ops codec m evs c = Ret r c' ->
  r = (None, None) \/ r = (None, Some ErrTimeout) \/ r = (None, Some ErrClosed).
Proof.
  unfold sendRequest, addRequest, delRequest, sendMsg, sendRaw, nextSeq.
  unfold_M. simpl.
  destruct (mx c); [discriminate|]. simpl.
  match goal with
  | |- context [select_wait sendRaw_cases ?t] =>
      destruct (select_wait sendRaw_cases t) as [sent|]
  end; [|discriminate].
  destruct sent; simpl;
    (match goal with
     | |- context [select_wait ?cs ?t] =>
         destruct (select_wait cs t) as [r'|] eqn:E
     end; [|discriminate]);
    simpl; intros [= <- _];
    apply select_wait_result in E; destruct E as (op & k & v & Hin & ->);
    destruct (0 <? ResponseTimeout ops (node c)); simpl in Hin;
    intuition (try discriminate);
    match goal with
    | H : (_, _) = (_, _) |- _ => inversion H; subst; auto
    end.
Qed.

(** [RemoteFeeds] never returns a list of feeds: whenever it returns, the
    list is empty and the error is [ErrTimeout], [ErrClosed] or the
    complaint about the type of a reply that is [nil]. *)
Theorem RemoteFeeds_never_lists (evs : list event) (l : list PubKey)
    (e : option error) c c' :
  RemoteFeeds ops codec evs c = Ret (l, e) c' ->
  l = [] /\
  (e = Some ErrTimeout \/ e = Some ErrClosed \/
   e = Some (errors_New "invalid response type")).
Proof.
  unfold RemoteFeeds. unfold mbind, M_bind.
  destruct (sendRequest ops codec msg_RqList evs c) as [r c1|c1] eqn:E;
    [|discriminate].
  apply sendRequest_results in E.
  destruct E as [->|[->| ->]]; simpl; unfold mret, M_ret;
    intros [= <- <- _]; auto.
Qed.

End conn_roots_and_api.

(** [Feeds] returns every feed of the feed map exactly once, and leaves
    the connection as it was. *)
Theorem Feeds_lists_subscriptions {Node : Type} (c : Conn Node) :
  mx c = false ->
  exists l,
    Feeds c = Ret l c /\
    NoDup l /\
    (forall k, k ∈ l <-> is_Some (feeds c !! k)) /\
    length l = size (feeds c).
Proof.
  intros Hmx. unfold Feeds. unfold_M. rewrite Hmx. simpl.
  rewrite set_mx_restore by exact Hmx.
  eexists. split; [reflexivity|]. split; [|split].
  - apply NoDup_fst_map_to_list.
  - intros k. rewrite list_elem_of_fmap. split.
    + intros [[k' cf] [-> Hin]]. apply elem_of_map_to_list in Hin.
      simpl. eauto.
    + intros [cf Hcf]. exists (k, cf). split; [reflexivity|].
      apply elem_of_map_to_list. exact Hcf.
  - rewrite length_fmap. apply length_map_to_list.
Qed.

(** The printed form of a connection tells its direction, its transport
    and its address apart. *)
Theorem connString_injective (i t i' t' : bool) (a a' : string) :
  connString i t a = connString i' t' a' ->
  i = i' /\ t = t' /\ a = a'.
Proof.
  unfold connString.
  destruct i, t, i', t'; simpl; intros H; try discriminate;
    inversion H; auto.
Qed.

Lemma handleRoot_not_subscribed_witness :
  handleRoot small_ops feed_a feed_a [0; 9] conn_a = Ret None conn_a.
Proof.
  apply (handleRoot_not_subscribed small_ops feed_a feed_a [0; 9] conn_a).
  - reflexivity.
  - reflexivity.
Defined.

Lemma handleRoot_newer_filled_witness :
  exists c',
    handleRoot small_ops feed_a feed_a [0; 9] conn_a_subscribed = Ret None c' /\
    filling c'
    = filling conn_a_subscribed
      ++ [(new_connFeed,
           {| Pub := feed_a; Nonce := 0; Seq := 9; IsFull := false |})] /\
    conn_state c' = conn_state conn_a_subscribed /\
    node c' = node_a.
Proof.
  apply (handleRoot_newer_filled small_ops feed_a feed_a [0; 9] new_connFeed
           node_a {| Pub := feed_a; Nonce := 0; Seq := 9; IsFull := false |}
           (Some root_a7) None conn_a_subscribed).
  - reflexivity.
  - vm_compute. reflexivity.
  - reflexivity.
  - reflexivity.
  - vm_compute. reflexivity.
  - left. reflexivity.
  - intros l [= <-]. simpl. lia.
Defined.

Lemma handleRoot_only_fills_witness :
  exists c',
    handleRoot small_ops feed_a feed_a [0; 9] conn_a_subscribed = Ret None c' /\
    conn_state c' = conn_state conn_a_subscribed /\
    (filling c' = filling conn_a_subscribed \/
     exists cf r n',
       feeds conn_a_subscribed !! feed_a = Some cf /\
       ReceivedRoot small_ops feed_a [0; 9] (node conn_a_subscribed)
       = (n', inl r) /\
       IsFull r = false /\
       filling c' = filling conn_a_subscribed ++ [(cf, r)]).
Proof.
  apply (handleRoot_only_fills small_ops feed_a feed_a [0; 9]
           conn_a_subscribed).
  reflexivity.
Defined.

Lemma Subscribe_share_refused_witness :
  Subscribe small_ops_rejecting tag_codec feed_a [] conn_a
  = Ret (Some (errors_New "feed refused")) (set_node node_a conn_a).
Proof.
  apply (Subscribe_share_refused small_ops_rejecting tag_codec feed_a []
           node_a (errors_New "feed refused") conn_a).
  - reflexivity.
  - reflexivity.
  - reflexivity.
Defined.

Lemma Subscribe_new_feed_never_returns_witness :
  exists c',
    Subscribe small_ops tag_codec feed_b [ev_close chan_closeq] conn_a
    = Parked c' /\
    mx c' = true /\
    feeds c' = feeds conn_a /\
    reqs c' = reqs conn_a /\
    sendq c' = sendq conn_a /\
    seq c' = wrap32 (seq conn_a + 1).
Proof.
  apply (Subscribe_new_feed_never_returns small_ops tag_codec feed_b
           [ev_close chan_closeq]
           {| shared := [feed_b; feed_a]; roots := [root_a7] |} conn_a).
  - reflexivity.
  - reflexivity.
  - reflexivity.
Defined.

Lemma RemoteFeeds_never_lists_witness :
  ([] : list PubKey) = [] /\
  (Some ErrClosed = Some ErrTimeout \/ Some ErrClosed = Some ErrClosed \/
   Some ErrClosed = Some (errors_New "invalid response type")).
Proof.
  apply (RemoteFeeds_never_lists small_ops tag_codec
           [ev_recv chan_sendq; ev_close chan_closeq]
           [] (Some ErrClosed) conn_a
           (set_world [ev_close chan_closeq]
              (set_sendq [encodeMsg tag_codec 1 0 msg_RqList]
                 (set_seq 1 conn_a)))).
  vm_compute. reflexivity.
Defined.

Lemma Feeds_lists_subscriptions_witness :
  exists l,
    Feeds conn_a_subscribed = Ret l conn_a_subscribed /\
    NoDup l /\
    (forall k, k ∈ l <-> is_Some (feeds conn_a_subscribed !! k)) /\
    length l = size (feeds conn_a_subscribed).
Proof.
  apply (Feeds_lists_subscriptions conn_a_subscribed). reflexivity.
Defined.

Lemma connString_injective_witness :
  true = true /\ false = false /\ "127.0.0.1:8887"%string = "127.0.0.1:8887"%string.
Proof.
  apply (connString_injective true false true false
           "127.0.0.1:8887" "127.0.0.1:8887").
  reflexivity.
Defined.

(** The form the source's comment gives. *)
Example connString_incoming_tcp :
  connString true true "127.0.0.1:8887" = "-> tcp://127.0.0.1:8887"%string.
Proof. reflexivity. Qed.

(** * Further properties of the client *)

Lemma Client_has_elem (l : list PubKey) (feed : PubKey) :
  Client.has l feed = true <-> feed ∈ l.
Proof.
  induction l as [|f l IH]; simpl.
  - split; [discriminate|]. intros H. inversion H.
  - destruct (decide (f = feed)) as [->|Hne].
    + split; [intros _; constructor|reflexivity].
    + rewrite IH. split.
      * intros H. constructor. exact H.
      * intros H. inversion H; subst; [congruence|assumption].
Qed.

Lemma Client_has_not_elem (l : list PubKey) (feed : PubKey) :
  Client.has l feed = false <-> feed ∉ l.
Proof.
  rewrite <- Client_has_elem. destruct (Client.has l feed); split;
    congruence.
Qed.

Lemma Client_remove_first_absent (l : list PubKey) (feed : PubKey) :
  Client.has l feed = false -> Client.remove_first l feed = None.
Proof.
  induction l as [|f l IH]; simpl; [reflexivity|].
  destruct (decide (f = feed)); [discriminate|].
  intros H. rewrite (IH H). reflexivity.
Qed.

Lemma Client_remove_first_last (l : list PubKey) (feed : PubKey) :
  Client.has l feed = false ->
  Client.remove_first (l ++ [feed]) feed = Some l.
Proof.
  induction l as [|f l IH]; simpl.
  - intros _. rewrite decide_True by reflexivity. reflexivity.
  - destruct (decide (f = feed)); [discriminate|].
    intros H. rewrite (IH H). reflexivity.
Qed.

Lemma Client_remove_first_distinct (l l' : list PubKey) (feed : PubKey) :
  NoDup l ->
  Client.remove_first l feed = Some l' ->
  NoDup l' /\ (feed ∉ l') /\ (forall f, f ∈ l' -> f ∈ l).
Proof.
  revert l'. induction l as [|f l IH]; simpl; intros l' Hnd; [discriminate|].
  apply NoDup_cons in Hnd. destruct Hnd as [Hf Hnd].
  destruct (decide (f = feed)) as [->|Hne].
  - intros [= <-]. repeat split; auto. intros f Hin. constructor. exact Hin.
  - destruct (Client.remove_first l feed) as [rest|] eqn:E; [|discriminate].
    intros [= <-]. destruct (IH rest Hnd eq_refl) as (Hnd' & Hout & Hsub).
    repeat split.
    + apply NoDup_cons. split; [|exact Hnd'].
      intros Hin. apply Hf. apply Hsub. exact Hin.
    + intros Hin. inversion Hin; subst; [congruence|contradiction].
    + intros g Hin. inversion Hin; subst; [constructor|].
      constructor. apply Hsub. assumption.
Qed.

Section client_facts.

Context (Encode : Client.Msg -> list byte).

(** [sendMessage] leaves both lists of feeds alone. *)
Lemma Client_sendMessage_lists (pick_send : bool) (msg : Client.Msg)
    (c : Client.Client) :
  Client.feeds (fst (Client.sendMessage Encode pick_send msg c))
  = Client.feeds c /\
  Client.srvfs (fst (Client.sendMessage Encode pick_send msg c))
  = Client.srvfs c.
Proof.
  unfold Client.sendMessage.
  destruct (_ && _); [split; reflexivity|].
  destruct (Client.Closed (Client.cn c)); split; reflexivity.
Qed.

(** The list of subscriptions after a [Subscribe] that goes through. *)
Lemma Client_Subscribe_new_feeds (pick_send : bool) (feed : PubKey)
    (c : Client.Client) :
  Client.hasServerFeed c feed = true ->
  Client.hasFeed c feed = false ->
  Client.feeds (fst (Client.Subscribe Encode pick_send feed c))
  = Client.feeds c ++ [feed].
Proof.
  intros Hsrv Hnew. unfold Client.Subscribe. rewrite Hsrv, Hnew. simpl.
  apply (Client_sendMessage_lists pick_send (Client.AddFeedMsg feed)
           (Client.set_feeds (Client.feeds c ++ [feed]) c)).
Qed.

(** [sendMessage] changes neither list of feeds.  It returns [true]
    exactly when it has put the encoded message at the end of the send
    queue; otherwise the queue is as before and the connection is closed
    afterwards.  The queue never grows beyond its capacity, and on an open
    connection the message is queued whenever there is room. *)
Theorem Client_sendMessage_outcome (pick_send : bool) (msg : Client.Msg)
    (c : Client.Client) :
  let c' := fst (Client.sendMessage Encode pick_send msg c) in
  let ok := snd (Client.sendMessage Encode pick_send msg c) in
  Client.feeds c' = Client.feeds c /\
  Client.srvfs c' = Client.srvfs c /\
  Client.SendQueue (Client.cn c')
  = (if ok then Client.SendQueue (Client.cn c) ++ [Encode msg]
     else Client.SendQueue (Client.cn c)) /\
  (ok = false -> Client.Closed (Client.cn c') = true) /\
  ((length (Client.SendQueue (Client.cn c))
    <= Client.queue_cap (Client.cn c))%nat ->
   (length (Client.SendQueue (Client.cn c'))
    <= Client.queue_cap (Client.cn c'))%nat) /\
  (Client.Closed (Client.cn c) = false ->
   (ok = true <->
    (length (Client.SendQueue (Client.cn c))
     < Client.queue_cap (Client.cn c))%nat)).
Proof.
  unfold Client.sendMessage.
  destruct (Nat.ltb_spec (length (Client.SendQueue (Client.cn c)))
              (Client.queue_cap (Client.cn c))) as [Hroom|Hfull];
    destruct (Client.Closed (Client.cn c)) eqn:Hcl;
    destruct pick_send; simpl;
    repeat split; intros; simpl;
    try rewrite length_app; simpl; try lia; try congruence; auto.
Qed.

(** When the server offers the feed and the client is not subscribed,
    [Subscribe] records the subscription whether or not the message to the
    server could be queued: the feed is in the list also when it returns
    [false]. *)
Theorem Client_Subscribe_records_feed (pick_send : bool) (feed : PubKey)
    (c : Client.Client) :
  Client.hasServerFeed c feed = true ->
  Client.hasFeed c feed = false ->
  Client.feeds (fst (Client.Subscribe Encode pick_send feed c))
  = Client.feeds c ++ [feed] /\
  Client.srvfs (fst (Client.Subscribe Encode pick_send feed c))
  = Client.srvfs c.
Proof.
  intros Hsrv Hnew. unfold Client.Subscribe. rewrite Hsrv, Hnew. simpl.
  apply (Client_sendMessage_lists pick_send (Client.AddFeedMsg feed)
           (Client.set_feeds (Client.feeds c ++ [feed]) c)).
Qed.

(** Without the feed on the server, or with the subscription already
    there, [Subscribe] returns [false] and changes nothing. *)
Lemma Client_Subscribe_refused (pick_send : bool) (feed : PubKey)
    (c : Client.Client) :
  Client.hasServerFeed c feed = false \/ Client.hasFeed c feed = true ->
  Client.Subscribe Encode pick_send feed c = (c, false).
Proof.
  unfold Client.Subscribe. intros [H|H]; rewrite H; simpl; [reflexivity|].
  destruct (Client.hasServerFeed c feed); reflexivity.
Qed.

(** A list of subscriptions without duplicates stays so through
    [Subscribe] and [Unsubscribe], and after [Unsubscribe] the feed is not
    in it. *)
Theorem Client_subscriptions_distinct (pick_send : bool) (feed : PubKey)
    (c : Client.Client) :
  NoDup (Client.feeds c) ->
  NoDup (Client.feeds (fst (Client.Subscribe Encode pick_send feed c))) /\
  NoDup (Client.feeds (fst (Client.Unsubscribe Encode pick_send feed c))) /\
  Client.hasFeed (fst (Client.Unsubscribe Encode pick_send feed c)) feed
  = false.
Proof.
  intros Hnd. split.
  - destruct (Client.hasServerFeed c feed) eqn:Hsrv.
    + destruct (Client.hasFeed c feed) eqn:Hhas.
      * rewrite Client_Subscribe_refused by auto. exact Hnd.
      * rewrite (Client_Subscribe_new_feeds pick_send feed c Hsrv Hhas).
        apply NoDup_app. repeat split.
        -- exact Hnd.
        -- intros f Hin Hin'. apply list_elem_of_singleton in Hin'. subst.
           apply Client_has_not_elem in Hhas. contradiction.
        -- apply NoDup_singleton.
    + rewrite Client_Subscribe_refused by auto. exact Hnd.
  - unfold Client.Unsubscribe, Client.hasFeed.
    destruct (Client.remove_first (Client.feeds c) feed) as [l|] eqn:E.
    + destruct (Client_sendMessage_lists pick_send
                    (Client.DelFeedMsg feed) (Client.set_feeds l c))
        as (Hf & _).
      simpl in Hf. rewrite Hf.
      destruct (Client_remove_first_distinct _ _ _ Hnd E) as (Hnd' & Hout & _).
      split; [exact Hnd'|]. apply Client_has_not_elem. exact Hout.
    + simpl. split; [exact Hnd|].
      destruct (Client.has (Client.feeds c) feed) eqn:Hhas; [|reflexivity].
      exfalso. clear Hnd. revert E Hhas.
      induction (Client.feeds c) as [|f l IH]; simpl; [discriminate|].
      destruct (decide (f = feed)); [discriminate|].
      destruct (Client.remove_first l feed); [discriminate|]. auto.
Qed.

(** Subscribing to a feed and unsubscribing from it again gives the list
    of subscriptions back as it was. *)
Theorem Client_Subscribe_Unsubscribe (pick1 pick2 : bool) (feed : PubKey)
    (c : Client.Client) :
  Client.hasServerFeed c feed = true ->
  Client.hasFeed c feed = false ->
  Client.feeds
    (fst (Client.Unsubscribe Encode pick2 feed
            (fst (Client.Subscribe Encode pick1 feed c))))
  = Client.feeds c.
Proof.
  intros Hsrv Hnew.
  pose proof (Client_Subscribe_new_feeds pick1 feed c Hsrv Hnew) as Hf.
  unfold Client.Unsubscribe. rewrite Hf.
  rewrite Client_remove_first_last by exact Hnew.
  apply (Client_sendMessage_lists pick2 (Client.DelFeedMsg feed)
           (Client.set_feeds (Client.feeds c)
              (fst (Client.Subscribe Encode pick1 feed c)))).
Qed.

End client_facts.

(** The list of the server's feeds: a feed added is there, adding it again
    changes nothing, a list without duplicates stays so, and a feed that
    was not there is gone again after [delServerFeed], with the list as
    before. *)
Theorem Client_server_feeds (feed : PubKey) (c : Client.Client) :
  Client.hasServerFeed (Client.addServerFeed feed c) feed = true /\
  Client.addServerFeed feed (Client.addServerFeed feed c)
  = Client.addServerFeed feed c /\
  (NoDup (Client.srvfs c) ->
   NoDup (Client.srvfs (Client.addServerFeed feed c)) /\
   NoDup (Client.srvfs (Client.delServerFeed feed c)) /\
   Client.hasServerFeed (Client.delServerFeed feed c) feed = false) /\
  (Client.hasServerFeed c feed = false ->
   Client.srvfs (Client.delServerFeed feed (Client.addServerFeed feed c))
   = Client.srvfs c).
Proof.
  unfold Client.hasServerFeed, Client.addServerFeed, Client.delServerFeed.
  assert (Hadd : Client.has (Client.srvfs c ++ [feed]) feed = true).
  { apply Client_has_elem. apply elem_of_app. right. constructor. }
  split; [|split; [|split]].
  - destruct (Client.has (Client.srvfs c) feed) eqn:Hhas; simpl; auto.
  - destruct (Client.has (Client.srvfs c) feed) eqn:Hhas; simpl.
    + rewrite Hhas. reflexivity.
    + rewrite Hadd. reflexivity.
  - intros Hnd. split.
    + destruct (Client.has (Client.srvfs c) feed) eqn:Hhas; simpl; auto.
      apply NoDup_app. repeat split; auto.
      * intros f Hin Hin'. apply list_elem_of_singleton in Hin'. subst.
        apply Client_has_not_elem in Hhas. contradiction.
      * apply NoDup_singleton.
    + destruct (Client.remove_first (Client.srvfs c) feed) as [l|] eqn:E;
        simpl.
      * destruct (Client_remove_first_distinct _ _ _ Hnd E)
          as (Hnd' & Hout & _).
        split; [exact Hnd'|]. apply Client_has_not_elem. exact Hout.
      * split; [exact Hnd|].
        destruct (Client.has (Client.srvfs c) feed) eqn:Hhas; [|reflexivity].
        exfalso. clear Hnd Hadd. revert E Hhas.
        induction (Client.srvfs c) as [|f l IH]; simpl; [discriminate|].
        destruct (decide (f = feed)); [discriminate|].
        destruct (Client.remove_first l feed); [discriminate|]. auto.
  - intros Hhas. rewrite Hhas. simpl.
    rewrite Client_remove_first_last by exact Hhas. reflexivity.
Qed.

Lemma Client_Subscribe_records_feed_witness :
  Client.feeds (fst (Client.Subscribe (fun _ => [1]) true feed_a client_a))
  = Client.feeds client_a ++ [feed_a] /\
  Client.srvfs (fst (Client.Subscribe (fun _ => [1]) true feed_a client_a))
  = Client.srvfs client_a.
Proof.
  apply (Client_Subscribe_records_feed (fun _ => [1]) true feed_a client_a).
  - reflexivity.
  - reflexivity.
Defined.

(** With the queue full the call returns [false], closes the connection,
    and the feed is in the list all the same. *)
Example Client_Subscribe_full_queue :
  Client.Subscribe (fun _ => [1]) true feed_a client_a
  = ({| Client.feeds := [feed_a];
        Client.srvfs := [feed_a];
        Client.cn := {| Client.SendQueue := [[0]]; Client.queue_cap := 1;
                        Client.Closed := true |};
        Client.printed := ["[ERR] write queue full"%string] |}, false).
Proof. reflexivity. Qed.

Lemma Client_subscriptions_distinct_witness :
  NoDup (Client.feeds
           (fst (Client.Subscribe (fun _ => [1]) true feed_a client_a))) /\
  NoDup (Client.feeds
           (fst (Client.Unsubscribe (fun _ => [1]) true feed_a client_a))) /\
  Client.hasFeed
    (fst (Client.Unsubscribe (fun _ => [1]) true feed_a client_a)) feed_a
  = false.
Proof.
  apply (Client_subscriptions_distinct (fun _ => [1]) true feed_a client_a).
  simpl. constructor.
Defined.

Lemma Client_Subscribe_Unsubscribe_witness :
  Client.feeds
    (fst (Client.Unsubscribe (fun _ => [1]) false feed_a
            (fst (Client.Subscribe (fun _ => [1]) true feed_a client_a))))
  = Client.feeds client_a.
Proof.
  apply (Client_Subscribe_Unsubscribe (fun _ => [1]) true false feed_a
           client_a).
  - reflexivity.
  - reflexivity.
Defined.
